(** * GitHub History Weaver: plan compilation and sequential weaving

    A shallow embedding of [src/services/geminiService.ts]
    ([generateSimulationPlan]) and of the executor of [src/App.tsx]
    ([addLog], [handleWeave]), over the types of [types.ts], followed by
    the properties of the specification that hold of them and by the
    inputs on which the others fail.

    Conventions of the embedding.
    - A JavaScript string is a [string], a sequence of code units below
      256; the string values of a parsed JSON text, which an escape can
      take beyond that, are lists of 16-bit units.
    - A promise settles as an [outcome]: it returns or it throws. A thrown
      value is represented by its [message]; the collaborators fail with
      "a failure signal carrying a human-readable reason".
    - An [async] function is a sequential computation: each [await] is
      sequential composition, and the start and the settlement of every
      awaited operation are recorded as two successive actions of a trace.
    - The collaborators ([ai.models.generateContent], [initGitHub],
      [executeGitEvent]) and the wall clock are parameters: a generator
      function, and an environment with a state of its own.
    - [JSON.parse] and the [Date] operations used by the fallback are
      written out: a lexer and a parser with no fuel, and the calendar
      arithmetic of the date-time string format in UTC.
    - A finite number is the rational it denotes. The division and the
      multiplication of the progress percentage compute the exact result
      and round it to binary64, to nearest, ties to even. *)

From Stdlib Require Import ZArith QArith List String Ascii Bool Lia.
From Stdlib Require Import DecimalString Sorted Qround Permutation.
From Stdlib Require Import Qpower Qabs Lqa.
From Stdlib Require SpecFloat.
Import ListNotations.

Local Open Scope string_scope.
Local Open Scope list_scope.

Set Warnings "-register-all".

(** ** Results of fallible operations *)

Inductive outcome (A : Type) : Type :=
| Returned (a : A)
| Thrown (reason : string).

Arguments Returned {A} a.
Arguments Thrown {A} reason.

(** ** types.ts *)

Inductive SimulationPhase := setup | config_phase | blueprint | weaving | complete.

Inductive Strategy := gitflow | github_flow | trunk.

Record UserConfig := mkUserConfig {
  githubToken : string;
  username : string;
  targetRepo : string;
  startDate : string;
  endDate : string;
  techStack : string;
  intensity : Z;
  strategy : Strategy;
  includeLfs : bool;
  achievements : list string
}.

(** The configuration with another access token. *)
Definition with_token (token : string) (c : UserConfig) : UserConfig :=
  mkUserConfig token (username c) (targetRepo c) (startDate c) (endDate c)
    (techStack c) (intensity c) (strategy c) (includeLfs c) (achievements c).

Inductive EventType := t_commit | t_branch | t_merge | t_issue | t_pr | t_tag.

Record GitEvent := mkGitEvent {
  id : string;
  date : string;
  type : EventType;
  title : string;
  description : string;
  branch : option string;
  filesChanged : option Z;
  author : string;
  tags : option (list string)
}.

Inductive LogLevel := info | success | warning | error.

Record LogEntry := mkLogEntry {
  timestamp : string;
  level : LogLevel;
  message : string
}.

(** The string literal behind each member of the union
    ['commit' | 'branch' | 'merge' | 'issue' | 'pr' | 'tag']. *)
Definition EventType_str (t : EventType) : string :=
  match t with
  | t_commit => "commit"
  | t_branch => "branch"
  | t_merge => "merge"
  | t_issue => "issue"
  | t_pr => "pr"
  | t_tag => "tag"
  end.

(** ** String primitives of the runtime *)

Definition upper_ascii (c : ascii) : ascii :=
  let n := nat_of_ascii c in
  if (97 <=? n)%nat && (n <=? 122)%nat then ascii_of_nat (n - 32) else c.

(** [String.prototype.toUpperCase] on the letters a-z. *)
Fixpoint toUpperCase (s : string) : string :=
  match s with
  | EmptyString => EmptyString
  | String c r => String (upper_ascii c) (toUpperCase r)
  end.

(** Template-literal rendering of a non-negative integer. *)
Definition string_of_nat (n : nat) : string :=
  NilEmpty.string_of_uint (Nat.to_uint n).

Definition string_of_Z (z : Z) : string :=
  NilEmpty.string_of_int (Z.to_int z).

Definition string_of_bool (b : bool) : string :=
  if b then "true" else "false".

(** The double quote and the line feed, which a string literal here
    cannot hold. *)
Definition dq : string := String (ascii_of_nat 34) EmptyString.
Definition nl : string := String (ascii_of_nat 10) EmptyString.

(** [Array.prototype.join] on an array of strings. *)
Fixpoint join (sep : string) (l : list string) : string :=
  match l with
  | [] => ""
  | x :: r =>
      match r with
      | [] => x
      | _ :: _ => x ++ sep ++ join sep r
      end
  end.

(** [s.replace(/pat/g, '')] for a literal, non-empty [pat]: every
    occurrence found scanning left to right is dropped. [skip] counts the
    characters of the current occurrence still to drop. *)
Fixpoint remove_all_from (pat : string) (skip : nat) (s : string) : string :=
  match s with
  | EmptyString => EmptyString
  | String c r =>
      match skip with
      | S k => remove_all_from pat k r
      | O =>
          if prefix pat s
          then remove_all_from pat (String.length pat - 1) r
          else String c (remove_all_from pat 0 r)
      end
  end.

Definition remove_all (pat s : string) : string := remove_all_from pat 0 s.

(** White space and line terminators among the code units below 256. *)
Definition is_space (c : ascii) : bool :=
  let n := nat_of_ascii c in
  ((9 <=? n)%nat && (n <=? 13)%nat) || (n =? 32)%nat || (n =? 160)%nat.

Fixpoint trimStart (s : string) : string :=
  match s with
  | EmptyString => EmptyString
  | String c r => if is_space c then trimStart r else s
  end.

Fixpoint trimEnd (s : string) : string :=
  match s with
  | EmptyString => EmptyString
  | String c r =>
      match trimEnd r with
      | EmptyString => if is_space c then EmptyString else String c EmptyString
      | String _ _ as r' => String c r'
      end
  end.

(** [String.prototype.trim] *)
Definition trim (s : string) : string := trimEnd (trimStart s).

(** Truthiness of a string: [if (s)]. *)
Definition truthy (s : string) : bool :=
  match s with EmptyString => false | String _ _ => true end.

(** ** Numbers: binary64 arithmetic

    A finite number is the rational it denotes. An arithmetic operation of
    the language computes the exact result and rounds it to the nearest
    binary64 value, ties going to the even significand. *)

Module Binary64.

Local Open Scope Q_scope.

(** The binade of a positive rational: the [e] with
    [2^e <= q < 2^(e+1)]. *)
Definition binade (q : Q) : Z :=
  let d := (Z.log2 (Qnum q) - Z.log2 (Zpos (Qden q)))%Z in
  if Qle_bool (2 ^ d) q then d else (d - 1)%Z.

(** The nearest integer, a tie going to the even one. *)
Definition nearest_even (q : Q) : Z :=
  let f := Qfloor q in
  match Qcompare (q - inject_Z f) (1 # 2) with
  | Lt => f
  | Gt => (f + 1)%Z
  | Eq => if Z.even f then f else (f + 1)%Z
  end.

(** The spacing of the binary64 values around [q]: 53 significant bits,
    and the fixed spacing [2^-1074] of the subnormal range. *)
Definition exponent (q : Q) : Z := Z.max (binade q - 52) (-1074).

Definition ulp (q : Q) : Q := 2 ^ exponent (Qabs q).

(** The binary64 value nearest to an exact result, in lowest terms. The
    exact result is below the overflow threshold, where the language has
    an infinity: no number of the program comes near it. *)
Definition round (q : Q) : Q :=
  if Qeq_bool q 0 then 0
  else Qred (inject_Z (nearest_even (q / ulp q)) * ulp q).

(** [x / y] for a [y] that is not zero, and [x * y]. *)
Definition div (x y : Q) : Q := round (x / y).
Definition mul (x y : Q) : Q := round (x * y).

End Binary64.

(** ** JSON values and [JSON.parse] *)

Module Json.

(** The code units of a string value. An escape [\uXXXX] of a JSON text
    can denote any 16-bit unit, so string values are lists of numbers. *)
Definition units (s : string) : list N :=
  map N_of_ascii (list_ascii_of_string s).

(** The string of a list of code units below 256. *)
Definition text_of (u : list N) : string :=
  string_of_list_ascii (map ascii_of_N u).

(** A number is carried as its literal; its conversion to binary64 is not
    modelled. An object keeps its members in insertion order. *)
Inductive value :=
| Null
| Bool (b : bool)
| Number (literal : string)
| Str (s : list N)
| Array (items : list value)
| Object (members : list (list N * value)).

Fixpoint units_eqb (a b : list N) : bool :=
  match a, b with
  | [], [] => true
  | x :: a', y :: b' => (x =? y)%N && units_eqb a' b'
  | _, _ => false
  end.

(** Defining property [k] of an object: a repeated key overwrites the
    earlier value in place. *)
Fixpoint set_member (members : list (list N * value)) (k : list N) (v : value)
  : list (list N * value) :=
  match members with
  | [] => [(k, v)]
  | (k', v') :: r =>
      if units_eqb k k' then (k, v) :: r else (k', v') :: set_member r k v
  end.

(** Property read [o.k] on an object; [None] is [undefined]. *)
Fixpoint get_member (members : list (list N * value)) (k : list N)
  : option value :=
  match members with
  | [] => None
  | (k', v) :: r => if units_eqb k k' then Some v else get_member r k
  end.

Definition field (k : string) (v : value) : option value :=
  match v with
  | Object members => get_member members (units k)
  | _ => None
  end.

(** *** Lexer: one step per character *)

Inductive token :=
| T_lbracket | T_rbracket | T_lbrace | T_rbrace | T_colon | T_comma
| T_string (s : list N)
| T_number (literal : string)
| T_true | T_false | T_null.

(** Where the lexer stands inside a number: an optional minus sign, then
    0 or a non-zero digit followed by digits, then optionally a point and
    one or more digits, then optionally e or E, an optional sign and one
    or more digits. *)
Inductive number_state :=
| after_minus | after_zero | in_int | after_point | in_frac
| after_e | after_esign | in_exp.

Inductive lex_mode :=
| between
| in_string (acc : list N)
| in_escape (acc : list N)
| in_unicode (acc : list N) (hex : list N)
| in_number (st : number_state) (literal : string)
| in_word (rest : string) (tok : token).

Definition is_digit (n : N) : bool := ((48 <=? n) && (n <=? 57))%N.

Definition hex_digit (n : N) : option N :=
  if ((48 <=? n) && (n <=? 57))%N then Some (n - 48)%N
  else if ((97 <=? n) && (n <=? 102))%N then Some (n - 87)%N
  else if ((65 <=? n) && (n <=? 70))%N then Some (n - 55)%N
  else None.

Definition number_step (st : number_state) (n : N) : option number_state :=
  let is_e := ((n =? 101) || (n =? 69))%N in
  let is_point := (n =? 46)%N in
  match st with
  | after_minus =>
      if (n =? 48)%N then Some after_zero
      else if is_digit n then Some in_int else None
  | after_zero =>
      if is_point then Some after_point
      else if is_e then Some after_e else None
  | in_int =>
      if is_digit n then Some in_int
      else if is_point then Some after_point
      else if is_e then Some after_e else None
  | after_point => if is_digit n then Some in_frac else None
  | in_frac =>
      if is_digit n then Some in_frac
      else if is_e then Some after_e else None
  | after_e =>
      if ((n =? 43) || (n =? 45))%N then Some after_esign
      else if is_digit n then Some in_exp else None
  | after_esign => if is_digit n then Some in_exp else None
  | in_exp => if is_digit n then Some in_exp else None
  end.

Definition number_complete (st : number_state) : bool :=
  match st with
  | after_zero | in_int | in_frac | in_exp => true
  | _ => false
  end.

(** A character met between two tokens. [toks] is in reverse order. *)
Definition lex_between (c : ascii) (toks : list token)
  : option (lex_mode * list token) :=
  let n := N_of_ascii c in
  if ((n =? 32) || (n =? 9) || (n =? 10) || (n =? 13))%N
  then Some (between, toks)
  else if (n =? 91)%N then Some (between, T_lbracket :: toks)
  else if (n =? 93)%N then Some (between, T_rbracket :: toks)
  else if (n =? 123)%N then Some (between, T_lbrace :: toks)
  else if (n =? 125)%N then Some (between, T_rbrace :: toks)
  else if (n =? 58)%N then Some (between, T_colon :: toks)
  else if (n =? 44)%N then Some (between, T_comma :: toks)
  else if (n =? 34)%N then Some (in_string [], toks)
  else if (n =? 45)%N then Some (in_number after_minus (String c ""), toks)
  else if (n =? 48)%N then Some (in_number after_zero (String c ""), toks)
  else if is_digit n then Some (in_number in_int (String c ""), toks)
  else if (n =? 116)%N then Some (in_word "rue" T_true, toks)
  else if (n =? 102)%N then Some (in_word "alse" T_false, toks)
  else if (n =? 110)%N then Some (in_word "ull" T_null, toks)
  else None.

Definition escape_unit (n : N) : option N :=
  if (n =? 34)%N then Some 34%N
  else if (n =? 92)%N then Some 92%N
  else if (n =? 47)%N then Some 47%N
  else if (n =? 98)%N then Some 8%N
  else if (n =? 102)%N then Some 12%N
  else if (n =? 110)%N then Some 10%N
  else if (n =? 114)%N then Some 13%N
  else if (n =? 116)%N then Some 9%N
  else None.

Definition lex_step (st : lex_mode * list token) (c : ascii)
  : option (lex_mode * list token) :=
  let '(mode, toks) := st in
  let n := N_of_ascii c in
  match mode with
  | between => lex_between c toks
  | in_string acc =>
      if (n =? 34)%N then Some (between, T_string (rev acc) :: toks)
      else if (n =? 92)%N then Some (in_escape acc, toks)
      else if (n <? 32)%N then None
      else Some (in_string (n :: acc), toks)
  | in_escape acc =>
      if (n =? 117)%N then Some (in_unicode acc [], toks)
      else
        match escape_unit n with
        | Some u => Some (in_string (u :: acc), toks)
        | None => None
        end
  | in_unicode acc hex =>
      match hex_digit n with
      | None => None
      | Some d =>
          match hex with
          | [h1; h2; h3] =>
              Some (in_string ((((h1 * 16 + h2) * 16 + h3) * 16 + d)%N :: acc),
                    toks)
          | _ => Some (in_unicode acc (hex ++ [d]), toks)
          end
      end
  | in_number ns literal =>
      match number_step ns n with
      | Some ns' => Some (in_number ns' (literal ++ String c ""), toks)
      | None =>
          if number_complete ns
          then lex_between c (T_number literal :: toks)
          else None
      end
  | in_word rest tok =>
      match rest with
      | EmptyString => None
      | String c' EmptyString =>
          if Ascii.eqb c c' then Some (between, tok :: toks) else None
      | String c' rest' =>
          if Ascii.eqb c c' then Some (in_word rest' tok, toks) else None
      end
  end.

Fixpoint lex_from (st : lex_mode * list token) (s : string)
  : option (lex_mode * list token) :=
  match s with
  | EmptyString => Some st
  | String c r =>
      match lex_step st c with
      | Some st' => lex_from st' r
      | None => None
      end
  end.

Definition lex (s : string) : option (list token) :=
  match lex_from (between, []) s with
  | Some (between, toks) => Some (rev toks)
  | Some (in_number ns literal, toks) =>
      if number_complete ns then Some (rev (T_number literal :: toks))
      else None
  | _ => None
  end.

(** *** Parser: one step per token, with the open containers on a stack *)

Inductive frame :=
| in_array (items : list value)
| in_object (members : list (list N * value))
| in_member (members : list (list N * value)) (key : list N).

Inductive parse_state :=
| want_value (stack : list frame)
| array_open (stack : list frame)
| object_open (stack : list frame)
| want_key (members : list (list N * value)) (stack : list frame)
| want_colon (stack : list frame)
| after_value (stack : list frame)
| finished (v : value).

(** A complete value [v] goes to the innermost open container. The items
    of an open array are kept in reverse order. *)
Definition reduce (v : value) (stack : list frame) : option parse_state :=
  match stack with
  | [] => Some (finished v)
  | in_array items :: rest => Some (after_value (in_array (v :: items) :: rest))
  | in_member members key :: rest =>
      Some (after_value (in_object (set_member members key v) :: rest))
  | in_object _ :: _ => None
  end.

Definition start_value (tok : token) (stack : list frame)
  : option parse_state :=
  match tok with
  | T_lbracket => Some (array_open stack)
  | T_lbrace => Some (object_open stack)
  | T_string s => reduce (Str s) stack
  | T_number literal => reduce (Number literal) stack
  | T_true => reduce (Bool true) stack
  | T_false => reduce (Bool false) stack
  | T_null => reduce Null stack
  | T_rbracket | T_rbrace | T_colon | T_comma => None
  end.

Definition parse_step (st : parse_state) (tok : token) : option parse_state :=
  match st with
  | want_value stack => start_value tok stack
  | array_open stack =>
      match tok with
      | T_rbracket => reduce (Array []) stack
      | _ => start_value tok (in_array [] :: stack)
      end
  | object_open stack =>
      match tok with
      | T_rbrace => reduce (Object []) stack
      | T_string key => Some (want_colon (in_member [] key :: stack))
      | _ => None
      end
  | want_key members stack =>
      match tok with
      | T_string key => Some (want_colon (in_member members key :: stack))
      | _ => None
      end
  | want_colon stack =>
      match tok with
      | T_colon => Some (want_value stack)
      | _ => None
      end
  | after_value stack =>
      match stack, tok with
      | in_array items :: rest, T_comma =>
          Some (want_value (in_array items :: rest))
      | in_array items :: rest, T_rbracket => reduce (Array (rev items)) rest
      | in_object members :: rest, T_comma => Some (want_key members rest)
      | in_object members :: rest, T_rbrace => reduce (Object members) rest
      | _, _ => None
      end
  | finished _ => None
  end.

Fixpoint parse_from (st : parse_state) (toks : list token)
  : option parse_state :=
  match toks with
  | [] => Some st
  | tok :: r =>
      match parse_step st tok with
      | Some st' => parse_from st' r
      | None => None
      end
  end.

(** [JSON.parse(text)] without a reviver; a [SyntaxError] is a throw. *)
Definition parse (text : string) : outcome value :=
  match lex text with
  | None => Thrown "SyntaxError: invalid JSON text"
  | Some toks =>
      match parse_from (want_value []) toks with
      | Some (finished v) => Returned v
      | _ => Thrown "SyntaxError: invalid JSON text"
      end
  end.

End Json.

(** ** The [Date] object, in UTC *)

Module JsDate.

Local Open Scope Z_scope.

(** A time value: milliseconds since the epoch, or [None] for NaN. *)
Definition time := option Z.

Definition msPerDay : Z := 86400000.

(** Time values beyond 100,000,000 days from the epoch are clipped to
    NaN. *)
Definition TimeClip (t : time) : time :=
  match t with
  | Some z => if Z.abs z <=? 8640000000000000 then Some z else None
  | None => None
  end.

Definition is_leap (y : Z) : bool :=
  ((y mod 4 =? 0) && negb (y mod 100 =? 0)) || (y mod 400 =? 0).

Definition days_in_month (y m : Z) : Z :=
  if m =? 2 then (if is_leap y then 29 else 28)
  else if (m =? 4) || (m =? 6) || (m =? 9) || (m =? 11) then 30
  else 31.

(** Days from 1970-01-01 to the given day of the proleptic Gregorian
    calendar. *)
Definition days_from_civil (y m d : Z) : Z :=
  let y' := if m <=? 2 then y - 1 else y in
  let era := y' / 400 in
  let yoe := y' - era * 400 in
  let mp := (m + 9) mod 12 in
  let doy := (153 * mp + 2) / 5 + d - 1 in
  let doe := yoe * 365 + yoe / 4 - yoe / 100 + doy in
  era * 146097 + doe - 719468.

(** The (year, month, day) of a day number. *)
Definition civil_from_days (days : Z) : Z * Z * Z :=
  let z := days + 719468 in
  let era := z / 146097 in
  let doe := z - era * 146097 in
  let yoe := (doe - doe / 1460 + doe / 36524 - doe / 146096) / 365 in
  let doy := doe - (365 * yoe + yoe / 4 - yoe / 100) in
  let mp := (5 * doy + 2) / 153 in
  let d := doy - (153 * mp + 2) / 5 + 1 in
  let m := if mp <? 10 then mp + 3 else mp - 9 in
  let y := yoe + era * 400 in
  (if m <=? 2 then y + 1 else y, m, d).

Definition digit (c : ascii) : option Z :=
  let n := Z.of_nat (nat_of_ascii c) in
  if (48 <=? n) && (n <=? 57) then Some (n - 48) else None.

Fixpoint digits_from (acc : Z) (s : string) : option Z :=
  match s with
  | EmptyString => Some acc
  | String c r =>
      match digit c with
      | Some d => digits_from (acc * 10 + d) r
      | None => None
      end
  end.

(** The value of a non-empty string of decimal digits. *)
Definition digits (s : string) : option Z :=
  match s with
  | EmptyString => None
  | String _ _ => digits_from 0 s
  end.

(** The date-only form [YYYY-MM-DD]: UTC midnight of that day; NaN when
    the month or the day is out of bounds. *)
Definition parse_date (s : string) : time :=
  if (String.length s =? 10)%nat
     && String.eqb (substring 4 1 s) "-" && String.eqb (substring 7 1 s) "-"
  then
    match digits (substring 0 4 s), digits (substring 5 2 s),
          digits (substring 8 2 s) with
    | Some y, Some m, Some d =>
        if (1 <=? m) && (m <=? 12) && (1 <=? d) && (d <=? days_in_month y m)
        then Some (days_from_civil y m d * msPerDay)
        else None
    | _, _, _ => None
    end
  else None.

(** The time forms [HH:mm], [HH:mm:ss] and [HH:mm:ss.sss], in
    milliseconds; 24:00 is the end of the day. *)
Definition parse_time (s : string) : option Z :=
  let n := String.length s in
  let field_or (present : bool) (start len : nat) :=
    if present then digits (substring start len s) else Some 0 in
  if ((n =? 5) || (n =? 8) || (n =? 12))%nat
     && String.eqb (substring 2 1 s) ":"
     && ((n =? 5)%nat || String.eqb (substring 5 1 s) ":")
     && ((n <=? 8)%nat || String.eqb (substring 8 1 s) ".")
  then
    match digits (substring 0 2 s), digits (substring 3 2 s),
          field_or (8 <=? n)%nat 6%nat 2%nat,
          field_or (12 <=? n)%nat 9%nat 3%nat with
    | Some h, Some m, Some sec, Some ms =>
        if ((h <=? 23) && (m <=? 59) && (sec <=? 59))
           || ((h =? 24) && (m =? 0) && (sec =? 0) && (ms =? 0))
        then Some (((h * 60 + m) * 60 + sec) * 1000 + ms)
        else None
    | _, _, _, _ => None
    end
  else None.

(** [Date.parse] on the date-time string format: the date-only form
    [YYYY-MM-DD], which an [<input type="date">] yields, and the UTC
    date-time forms, a date, [T], a time and [Z]. These are the forms on
    which every engine agrees and which need no time zone. The other
    forms of the format (a year alone, a year and a month, a time with
    an offset or in local time) and what an engine makes of a string
    outside the format, such as a day past the end of its month or a date
    with slashes, are not modelled: here such a string is unrecognised,
    NaN, as the empty string is in every engine. The properties below
    are stated for dates of the modelled forms or for the empty string,
    or do not depend on the reading. *)
Definition parse (s : string) : time :=
  let n := String.length s in
  if (n =? 10)%nat then parse_date s
  else if (17 <=? n)%nat && String.eqb (substring 10 1 s) "T"
          && String.eqb (substring (n - 1) 1 s) "Z"
  then
    match parse_date (substring 0 10 s),
          parse_time (substring 11 (n - 12) s) with
    | Some d, Some t => Some (d + t)
    | _, _ => None
    end
  else None.

(** [new Date(s)] and [new Date(t)], as time values. *)
Definition of_string (s : string) : time := TimeClip (parse s).
Definition of_time (t : time) : time := TimeClip t.

(** [d.getTime() + ms] *)
Definition plus (t : time) (ms : Z) : time :=
  match t with
  | Some z => Some (z + ms)
  | None => None
  end.

Fixpoint zeros (n : nat) : string :=
  match n with
  | O => EmptyString
  | S n' => String "0" (zeros n')
  end.

(** A non-negative number in at least [width] decimal digits. *)
Definition pad (width : nat) (z : Z) : string :=
  let s := string_of_Z z in
  (zeros (width - String.length s) ++ s)%string.

(** [Date.prototype.toISOString]: [YYYY-MM-DDTHH:mm:ss.sssZ], the year in
    six signed digits outside 0..9999; a [RangeError] on an invalid
    date. *)
Definition toISOString (t : time) : outcome string :=
  match t with
  | None => Thrown "Invalid time value"
  | Some z =>
      let day := z / msPerDay in
      let ms_in_day := z mod msPerDay in
      let '(y, m, d) := civil_from_days day in
      let year :=
        if (0 <=? y) && (y <=? 9999) then pad 4 y
        else String (if y <? 0 then "-"%char else "+"%char) (pad 6 (Z.abs y)) in
      Returned
        (year ++ "-" ++ pad 2 m ++ "-" ++ pad 2 d ++ "T"
           ++ pad 2 (ms_in_day / 3600000) ++ ":"
           ++ pad 2 (ms_in_day / 60000 mod 60) ++ ":"
           ++ pad 2 (ms_in_day / 1000 mod 60) ++ "."
           ++ pad 3 (ms_in_day mod 1000) ++ "Z")%string
  end.

End JsDate.

(** ** services/geminiService.ts: the plan generator adapter *)

Module Gemini.

Local Open Scope string_scope.

(** The response schema handed to the generator. *)
Inductive Schema :=
| S_string (description : option string) (enum : list string)
| S_integer
| S_array (items : Schema)
| S_object (properties : list (string * Schema)) (required : list string).

Record GenerationConfig := mkGenerationConfig {
  systemInstruction : string;
  responseMimeType : string;
  responseSchema : Schema
}.

Record Request := mkRequest {
  model : string;
  contents : string;
  config : GenerationConfig
}.

(** What [ai.models.generateContent] resolves to: [response.text] is a
    string or [undefined]. *)
Record Response := mkResponse {
  text : option string
}.

(** The generator collaborator: it resolves or it rejects. *)
Definition Generator := Request -> outcome Response.

Definition Strategy_str (s : Strategy) : string :=
  match s with
  | gitflow => "gitflow"
  | github_flow => "github-flow"
  | trunk => "trunk"
  end.

Definition prompt (config : UserConfig) : string :=
  "" ++ nl ++
  "    Act as a " ++ dq ++ "GitHub History Architect" ++ dq ++ ". I need to generate a realistic JSON history of Git events for a repository." ++ nl ++
  "    " ++ nl ++
  "    Configuration:" ++ nl ++
  "    - User: " ++ username config ++ nl ++
  "    - Repo: " ++ targetRepo config ++ nl ++
  "    - Tech Stack: " ++ techStack config ++ nl ++
  "    - Branching Strategy: " ++ Strategy_str (strategy config) ++ nl ++
  "    - Date Range: " ++ startDate config ++ " to " ++ endDate config ++ nl ++
  "    - Intensity (1-10): " ++ string_of_Z (intensity config) ++ nl ++
  "    - Target Achievements: " ++ join ", " (achievements config) ++ nl ++
  "    - Include LFS: " ++ string_of_bool (includeLfs config) ++ nl ++
  "" ++ nl ++
  "    Generate a strictly chronological list of approximately 20-30 representative events (scaling down for demo purposes, normally would be hundreds) that tells a story of development." ++ nl ++
  "    Include a mix of:" ++ nl ++
  "    1. Initial commit" ++ nl ++
  "    2. Feature branches creation" ++ nl ++
  "    3. Commits (feat, fix, chore, docs) with realistic messages." ++ nl ++
  "    4. Issues created and closed." ++ nl ++
  "    5. Pull Requests created, reviewed (simulated), and merged." ++ nl ++
  "    6. Tag releases (e.g., v1.0.0)." ++ nl ++
  "" ++ nl ++
  "    Ensure " ++ dq ++ "Pair Extraordinaire" ++ dq ++ " (Co-authored-by) is present if requested." ++ nl ++
  "    Ensure " ++ dq ++ "Pull Shark" ++ dq ++ " (Merges) is present if requested." ++ nl ++
  "    " ++ nl ++
  "    The dates must be distributed realistically (more on weekdays, less on weekends)." ++ nl ++
  "  ".

Definition event_schema : Schema :=
  S_array
    (S_object
       [ ("id", S_string None []);
         ("date", S_string (Some "ISO 8601 Date string") []);
         ("type",
          S_string None ["commit"; "branch"; "merge"; "issue"; "pr"; "tag"]);
         ("title", S_string None []);
         ("description", S_string None []);
         ("branch", S_string None []);
         ("filesChanged", S_integer);
         ("author", S_string None []);
         ("tags", S_array (S_string None [])) ]
       ["id"; "date"; "type"; "title"; "branch"; "author"]).

Definition request (config : UserConfig) : Request :=
  mkRequest "gemini-2.5-flash" (prompt config)
    (mkGenerationConfig
       "You are a Git simulation engine. You output strictly structured JSON data representing a repository history."
       "application/json"
       event_schema).

(** [response.text || ""] *)
Definition response_text (response : Response) : string :=
  match text response with
  | Some t => t
  | None => ""
  end.

(** The text without its markdown code fences, trimmed. *)
Definition clean (text : string) : string :=
  trim (remove_all "```" (remove_all "```json" text)).

(** The [try] block: the awaited call, the clean-up of the text and the
    parse. Whatever it throws is caught by the handler below. *)
Definition generate (generateContent : Generator) (config : UserConfig)
  : outcome Json.value :=
  match generateContent (request config) with
  | Thrown reason => Thrown reason
  | Returned response =>
      let jsonStr := clean (response_text response) in
      if truthy jsonStr then Json.parse jsonStr
      else Thrown "No data returned from AI"
  end.

Definition str (s : string) : Json.value := Json.Str (Json.units s).

Definition member (k : string) (v : Json.value) : list N * Json.value :=
  (Json.units k, v).

(** The array literal of the [catch] block, given its two dates and the
    author of both events. *)
Definition two_events (first_date second_date author : string) : Json.value :=
  Json.Array
    [ Json.Object
        [ member "id" (str "evt_1");
          member "date" (str first_date);
          member "type" (str "commit");
          member "title" (str "feat: Initial project scaffold");
          member "description"
            (str "Initialize project structure with standard boilerplate");
          member "branch" (str "main");
          member "filesChanged" (Json.Number "12");
          member "author" (str author);
          member "tags" (Json.Array [str "init"]) ];
      Json.Object
        [ member "id" (str "evt_2");
          member "date" (str second_date);
          member "type" (str "branch");
          member "title" (str "Create branch feature/auth-system");
          member "description" (str "Branching for authentication system");
          member "branch" (str "feature/auth-system");
          member "filesChanged" (Json.Number "0");
          member "author" (str author);
          member "tags" (Json.Array [str "flow"]) ] ].

(** The [catch] block. The second date is computed with [toISOString],
    which throws on an invalid date, and the throw leaves the handler. *)
Definition fallback (config : UserConfig) : outcome Json.value :=
  match
    JsDate.toISOString
      (JsDate.of_time
         (JsDate.plus (JsDate.of_string (startDate config)) 86400000))
  with
  | Thrown reason => Thrown reason
  | Returned next_day =>
      Returned (two_events (startDate config) next_day (username config))
  end.

(** What the promise of [generateSimulationPlan] settles to, and the
    lines written by [console.error]. *)
Definition generateSimulationPlan (generateContent : Generator)
  (config : UserConfig) : outcome Json.value * list (string * string) :=
  match generate generateContent config with
  | Returned plan => (Returned plan, [])
  | Thrown reason =>
      (fallback config, [("AI Generation failed:", reason)])
  end.

(** Generation failure, in its three kinds: the collaborator rejects, the
    cleaned text is empty, the cleaned text does not parse. [reason] is
    the message of what the [try] block throws. *)
Inductive generation_fails (g : Generator) (c : UserConfig) : string -> Prop :=
| collaborator_fault reason :
    g (request c) = Thrown reason ->
    generation_fails g c reason
| empty_response response :
    g (request c) = Returned response ->
    truthy (clean (response_text response)) = false ->
    generation_fails g c "No data returned from AI"
| parse_failure response reason :
    g (request c) = Returned response ->
    truthy (clean (response_text response)) = true ->
    Json.parse (clean (response_text response)) = Thrown reason ->
    generation_fails g c reason.

End Gemini.

(** ** Predicates of the specification *)

Module Spec.

(** Modelled from the spec: [validateConfig] (section 4.1) is not in the
    source. A configuration is valid when its intensity is an integer in
    1..10 and its dates are calendar dates with start no later than end. *)
Definition validConfig (c : UserConfig) : bool :=
  ((1 <=? intensity c) && (intensity c <=? 10))%Z
  && match JsDate.parse_date (startDate c), JsDate.parse_date (endDate c) with
     | Some a, Some b => (a <=? b)%Z
     | _, _ => false
     end.

(** Modelled from the spec: the window check on an event is not in the
    source. The event's date falls on a day of the inclusive window
    [startDate, endDate]. *)
Definition date_in_window (c : UserConfig) (event : Json.value) : bool :=
  match Json.field "date" event with
  | Some (Json.Str d) =>
      match JsDate.parse_date (startDate c), JsDate.parse (Json.text_of d),
            JsDate.parse_date (endDate c) with
      | Some a, Some t, Some b =>
          ((a / JsDate.msPerDay <=? t / JsDate.msPerDay)
           && (t / JsDate.msPerDay <=? b / JsDate.msPerDay))%Z
      | _, _, _ => false
      end
  | _ => false
  end.

(** Modelled from the spec: a non-empty Plan whose every event's date lies
    within the window. *)
Definition nonempty_within_window (c : UserConfig) (plan : Json.value) : bool :=
  match plan with
  | Json.Array (event :: events) =>
      forallb (date_in_window c) (event :: events)
  | _ => false
  end.

(** Modelled from the spec: the progress after the event of index [i] of
    [n], the exact quotient [(i+1)/n * 100]. *)
Definition progress_after (i n : nat) : Q :=
  inject_Z (Z.of_nat (i + 1)) / inject_Z (Z.of_nat n) * 100.

End Spec.

(** ** App.tsx: the weaving executor *)

Module Weave.

(** The observable actions of a run, in the order they happen. *)
Inductive action :=
| SetPhase (p : SimulationPhase)
| SetLogs (l : list LogEntry)
| AppendLog (e : LogEntry)
| SetProgress (p : Q)
| SetIsWeaving (b : bool)
| CallInitGitHub (token repo owner : string)
| InitGitHubSettled (r : outcome unit)
| CallExecuteGitEvent (event : GitEvent) (config : UserConfig)
| ExecuteGitEventSettled (r : outcome string)
| TimerSet (ms : Z)
| TimerFired (ms : Z).

(** The outside world of a run: the remote-repository collaborator of
    [services/githubService] and the wall clock. *)
Record Env := mkEnv {
  world : Type;
  initGitHub : string -> string -> string -> world -> outcome unit * world;
  executeGitEvent : GitEvent -> UserConfig -> world -> outcome string * world;
  toLocaleTimeString : world -> string;
  elapse : Z -> world -> world
}.

(** The component state that [handleWeave] writes. *)
Record AppState := mkAppState {
  phase : SimulationPhase;
  logs : list LogEntry;
  progress : Q;
  isWeaving : bool
}.

Section Executor.

Variable E : Env.

Record Store := mkStore {
  app : AppState;
  env : world E
}.

(** State, exceptions and an action trace. The store survives a throw,
    as component state and the remote repository do. *)
Definition M (A : Type) : Type := Store -> outcome A * Store * list action.

Definition ret {A} (a : A) : M A := fun s => (Returned a, s, []).

Definition throw {A} (reason : string) : M A := fun s => (Thrown reason, s, []).

Definition bind {A B} (m : M A) (f : A -> M B) : M B :=
  fun s =>
    match m s with
    | (Returned a, s1, t1) =>
        let '(r, s2, t2) := f a s1 in (r, s2, t1 ++ t2)
    | (Thrown e, s1, t1) => (Thrown e, s1, t1)
    end.

Notation "x <- m ;; k" := (bind m (fun x => k))
  (at level 61, m at next level, right associativity).
Notation "m ;; k" := (bind m (fun _ => k))
  (at level 61, right associativity).

(** [try { body } catch (e) { handler(e.message) }] *)
Definition try_catch {A} (body : M A) (handler : string -> M A) : M A :=
  fun s =>
    match body s with
    | (Returned a, s1, t1) => (Returned a, s1, t1)
    | (Thrown e, s1, t1) =>
        let '(r, s2, t2) := handler e s1 in (r, s2, t1 ++ t2)
    end.

(** [try { body } finally { final }]: [final] always runs; a throw of
    [body] is rethrown after it unless [final] throws itself. *)
Definition try_finally {A} (body : M A) (final : M unit) : M A :=
  fun s =>
    let '(r, s1, t1) := body s in
    match final s1 with
    | (Returned _, s2, t2) => (r, s2, t1 ++ t2)
    | (Thrown e, s2, t2) => (Thrown e, s2, t1 ++ t2)
    end.

Definition emit (a : action) (f : AppState -> AppState) : M unit :=
  fun s => (Returned tt, mkStore (f (app s)) (env s), [a]).

Definition setPhase (p : SimulationPhase) : M unit :=
  emit (SetPhase p)
    (fun a => mkAppState p (logs a) (progress a) (isWeaving a)).

Definition setLogs (l : list LogEntry) : M unit :=
  emit (SetLogs l)
    (fun a => mkAppState (phase a) l (progress a) (isWeaving a)).

Definition setProgress (p : Q) : M unit :=
  emit (SetProgress p)
    (fun a => mkAppState (phase a) (logs a) p (isWeaving a)).

Definition setIsWeaving (b : bool) : M unit :=
  emit (SetIsWeaving b)
    (fun a => mkAppState (phase a) (logs a) (progress a) b).

(** [addLog]: [setLogs(prev => [...prev, {timestamp, level, message}])],
    the timestamp read from the wall clock. *)
Definition addLog (message : string) (level : LogLevel) : M unit :=
  fun s =>
    let entry := mkLogEntry (toLocaleTimeString E (env s)) level message in
    emit (AppendLog entry)
      (fun a => mkAppState (phase a) (logs a ++ [entry]) (progress a)
                  (isWeaving a)) s.

(** [await initGitHub(token, repo, owner)] *)
Definition await_initGitHub (token repo owner : string) : M unit :=
  fun s =>
    let '(r, w) := initGitHub E token repo owner (env s) in
    (r, mkStore (app s) w,
     [CallInitGitHub token repo owner; InitGitHubSettled r]).

(** [await executeGitEvent(event, config)] *)
Definition await_executeGitEvent (event : GitEvent) (config : UserConfig)
  : M string :=
  fun s =>
    let '(r, w) := executeGitEvent E event config (env s) in
    (r, mkStore (app s) w,
     [CallExecuteGitEvent event config; ExecuteGitEventSettled r]).

(** [await new Promise(resolve => setTimeout(resolve, ms))] *)
Definition await_timeout (ms : Z) : M unit :=
  fun s =>
    (Returned tt, mkStore (app s) (elapse E ms (env s)),
     [TimerSet ms; TimerFired ms]).

(** [for (let i = start; i < start + count; i++) body(i)] *)
Fixpoint for_loop (count start : nat) (body : nat -> M unit) : M unit :=
  match count with
  | O => ret tt
  | S count' => body start ;; for_loop count' (S start) body
  end.

(** [((i + 1) / plan.length) * 100]. An index and the length of an array
    are integers below 2^32, which binary64 holds exactly; the quotient
    and the product are rounded. The loop divides by the length of a plan
    that has an event. *)
Definition percent (i n : nat) : Q :=
  Binary64.mul
    (Binary64.div (inject_Z (Z.of_nat (i + 1))) (inject_Z (Z.of_nat n))) 100.

(** The body of the [for] loop of [handleWeave] at index [i]. Reading a
    property of [plan[i]] past the end of the array is a TypeError. *)
Definition weave_event (config : UserConfig) (plan : list GitEvent) (i : nat)
  : M unit :=
  match nth_error plan i with
  | None =>
      throw "Cannot read properties of undefined (reading 'type')"
  | Some event =>
      addLog ("Processing [" ++ toUpperCase (EventType_str (type event))
                ++ "] " ++ title event ++ "...") info ;;
      try_catch
        (resultMsg <- await_executeGitEvent event config ;;
         addLog resultMsg success)
        (fun e => addLog ("Failed: " ++ e) error) ;;
      setProgress (percent i (List.length plan)) ;;
      await_timeout 800
  end.

Definition handleWeave (config : UserConfig) (plan : list GitEvent) : M unit :=
  setPhase weaving ;;
  setLogs [] ;;
  setProgress 0 ;;
  setIsWeaving true ;;
  addLog ("Initializing GitHub connection for " ++ username config ++ "/"
            ++ targetRepo config ++ "...") info ;;
  try_finally
    (try_catch
       (await_initGitHub (githubToken config) (targetRepo config)
          (username config) ;;
        addLog ("Connected securely. Starting sequence of "
                  ++ string_of_nat (List.length plan) ++ " events.") success ;;
        for_loop (List.length plan) 0 (weave_event config plan) ;;
        addLog "All events processed successfully." success)
       (fun e => addLog ("Critical Error: " ++ e) error))
    (setIsWeaving false ;;
     setProgress 100 ;;
     setPhase complete).

End Executor.

Arguments app {E} s.
Arguments env {E} s.

(** The trace and the final component state of a run. *)
Definition trace_of {E A} (run : outcome A * Store E * list action)
  : list action := snd run.

Definition app_of {E A} (run : outcome A * Store E * list action)
  : AppState := app (snd (fst run)).

(** *** Reading a trace *)

(** One pass through the loop body, as the trace shows it: the event, the
    clock readings of its two log entries and the settlement of its remote
    call. *)
Record Attempt := mkAttempt {
  a_index : nat;
  a_event : GitEvent;
  a_started : string;
  a_result : outcome string;
  a_reported : string
}.

Definition processing_entry (a : Attempt) : LogEntry :=
  mkLogEntry (a_started a) info
    ("Processing [" ++ toUpperCase (EventType_str (type (a_event a)))
       ++ "] " ++ title (a_event a) ++ "...").

Definition settled_entry (a : Attempt) : LogEntry :=
  match a_result a with
  | Returned resultMsg => mkLogEntry (a_reported a) success resultMsg
  | Thrown reason => mkLogEntry (a_reported a) error ("Failed: " ++ reason)
  end.

Definition attempt_logs (a : Attempt) : list LogEntry :=
  [processing_entry a; settled_entry a].

Definition attempt_actions (config : UserConfig) (n : nat) (a : Attempt)
  : list action :=
  [ AppendLog (processing_entry a);
    CallExecuteGitEvent (a_event a) config;
    ExecuteGitEventSettled (a_result a);
    AppendLog (settled_entry a);
    SetProgress (percent (a_index a) n);
    TimerSet 800;
    TimerFired 800 ].

(** The actions before the connection step and after the [try] block. *)
Definition opening : list action :=
  [SetPhase weaving; SetLogs []; SetProgress 0; SetIsWeaving true].

Definition closing : list action :=
  [SetIsWeaving false; SetProgress 100; SetPhase complete].

Definition connecting_message (config : UserConfig) : string :=
  "Initializing GitHub connection for " ++ username config ++ "/"
    ++ targetRepo config ++ "...".

Definition connected_message (plan : list GitEvent) : string :=
  "Connected securely. Starting sequence of "
    ++ string_of_nat (List.length plan) ++ " events.".

Definition connect_actions (config : UserConfig) (r : outcome unit)
  : list action :=
  [ CallInitGitHub (githubToken config) (targetRepo config) (username config);
    InitGitHubSettled r ].

Definition closing_message : string := "All events processed successfully.".

(** The trace of a run whose connection step succeeds, given the clock
    readings [t0], [t1] and [t2] of its three own log entries and the
    attempts of its loop. *)
Definition connected_trace (config : UserConfig) (plan : list GitEvent)
  (t0 t1 t2 : string) (atts : list Attempt) : list action :=
  opening
    ++ [AppendLog (mkLogEntry t0 info (connecting_message config))]
    ++ connect_actions config (Returned tt)
    ++ [AppendLog (mkLogEntry t1 success (connected_message plan))]
    ++ flat_map (attempt_actions config (List.length plan)) atts
    ++ [AppendLog (mkLogEntry t2 success closing_message)]
    ++ closing.

Definition connected_logs (config : UserConfig) (plan : list GitEvent)
  (t0 t1 t2 : string) (atts : list Attempt) : list LogEntry :=
  [ mkLogEntry t0 info (connecting_message config);
    mkLogEntry t1 success (connected_message plan) ]
    ++ flat_map attempt_logs atts
    ++ [mkLogEntry t2 success closing_message].

(** The trace of a run whose connection step fails with [reason]. *)
Definition refused_trace (config : UserConfig) (t0 t1 : string)
  (reason : string) : list action :=
  opening
    ++ [AppendLog (mkLogEntry t0 info (connecting_message config))]
    ++ connect_actions config (Thrown reason)
    ++ [AppendLog (mkLogEntry t1 error ("Critical Error: " ++ reason))]
    ++ closing.

Definition refused_logs (config : UserConfig) (t0 t1 : string)
  (reason : string) : list LogEntry :=
  [ mkLogEntry t0 info (connecting_message config);
    mkLogEntry t1 error ("Critical Error: " ++ reason) ].

(** The events handed to [executeGitEvent], in call order. *)
Definition executed (t : list action) : list GitEvent :=
  flat_map
    (fun a => match a with CallExecuteGitEvent event _ => [event] | _ => [] end)
    t.

(** The settlements of the remote calls, in order. *)
Definition settlements (t : list action) : list (outcome string) :=
  flat_map
    (fun a => match a with ExecuteGitEventSettled r => [r] | _ => [] end) t.

(** The settlements of the connection step. *)
Definition connections (t : list action) : list (outcome unit) :=
  flat_map (fun a => match a with InitGitHubSettled r => [r] | _ => [] end) t.

(** The values passed to [setProgress], in order. *)
Definition progress_updates (t : list action) : list Q :=
  flat_map (fun a => match a with SetProgress p => [p] | _ => [] end) t.

(** The timers that fired, in order. *)
Definition delays (t : list action) : list Z :=
  flat_map (fun a => match a with TimerFired ms => [ms] | _ => [] end) t.

(** Where a run stands between two remote calls. *)
Inductive pace := ready | calling | settled | waiting.

(** The no-overlap discipline, read off a trace: a remote call starts only
    from [ready]; it must settle, then an 800 ms timer must be set and
    fire, before the run is [ready] again. Other actions do not move it. *)
Definition pace_step (p : pace) (a : action) : option pace :=
  match a with
  | CallExecuteGitEvent _ _ =>
      match p with ready => Some calling | _ => None end
  | ExecuteGitEventSettled _ =>
      match p with calling => Some settled | _ => None end
  | TimerSet ms =>
      match p with
      | settled => if (ms =? 800)%Z then Some waiting else None
      | _ => None
      end
  | TimerFired _ =>
      match p with waiting => Some ready | _ => None end
  | _ => Some p
  end.

Fixpoint pace_from (p : pace) (t : list action) : option pace :=
  match t with
  | [] => Some p
  | a :: t' =>
      match pace_step p a with
      | Some p' => pace_from p' t'
      | None => None
      end
  end.

Definition well_paced (t : list action) : Prop :=
  pace_from ready t = Some ready.

Definition is_error (e : LogEntry) : bool :=
  match level e with error => true | _ => false end.

(** What a log entry shows besides its clock reading. *)
Definition shown (e : LogEntry) : LogLevel * string := (level e, message e).

End Weave.

(** ** Sample configurations, plans and collaborators *)

Module Sample.

Local Open Scope string_scope.

Definition alice : UserConfig :=
  mkUserConfig "ghp_0123456789" "alice" "history-weaver-demo"
    "2024-01-01" "2024-01-02" "React & TypeScript" 7 gitflow true
    ["pull_shark"; "pair_extraordinaire"].

Definition evt_1 : GitEvent :=
  mkGitEvent "evt_1" "2024-01-01" t_commit "feat: Initial project scaffold"
    "Initialize project structure with standard boilerplate" (Some "main")
    (Some 12%Z) "alice" (Some ["init"]).

Definition evt_2 : GitEvent :=
  mkGitEvent "evt_2" "2024-01-02T00:00:00.000Z" t_branch
    "Create branch feature/auth-system" "Branching for authentication system"
    (Some "feature/auth-system") (Some 0%Z) "alice" (Some ["flow"]).

Definition evt_3 : GitEvent :=
  mkGitEvent "evt_3" "2024-01-02T09:30:00.000Z" t_pr "Add login form"
    "Open a pull request for the login form" (Some "feature/auth-system")
    (Some 3%Z) "alice" None.

Definition three_events : list GitEvent := [evt_1; evt_2; evt_3].

(** A remote repository that refuses an empty token and fails on the
    events whose id is in [failing]; its state is a clock in ticks. *)
Definition remote (failing : list string) : Weave.Env :=
  Weave.mkEnv nat
    (fun token _ _ w =>
       (if truthy token then Returned tt else Thrown "Bad credentials",
        S w))
    (fun event _ w =>
       (if existsb (String.eqb (id event)) failing
        then Thrown ("Reference already exists: " ++ id event)
        else Returned ("Done: " ++ title event),
        S w))
    (fun w => "t" ++ string_of_nat w)
    (fun _ w => S w).

Definition fresh (failing : list string) : Weave.Store (remote failing) :=
  Weave.mkStore (remote failing)
    (Weave.mkAppState blueprint [] 0 false) O.

(** Generators that reject, and that answer with a given text. *)
Definition unreachable : Gemini.Generator :=
  fun _ => Thrown "fetch failed".

Definition answering (text : string) : Gemini.Generator :=
  fun _ => Returned (Gemini.mkResponse (Some text)).

(** A generator that resolves with no text at all. *)
Definition silent : Gemini.Generator :=
  fun _ => Returned (Gemini.mkResponse None).

Definition quoted (s : string) : string := dq ++ s ++ dq.

(** A fenced response holding one event dated years before the window of
    [alice]. *)
Definition stale_response : string :=
  "```json" ++ nl
    ++ "[{" ++ quoted "id" ++ ": " ++ quoted "evt_9" ++ ", "
    ++ quoted "date" ++ ": " ++ quoted "1999-12-31" ++ ", "
    ++ quoted "type" ++ ": " ++ quoted "commit" ++ ", "
    ++ quoted "title" ++ ": " ++ quoted "chore: import legacy code" ++ ", "
    ++ quoted "branch" ++ ": " ++ quoted "main" ++ ", "
    ++ quoted "author" ++ ": " ++ quoted "alice" ++ "}]" ++ nl
    ++ "```".

Definition stale_event : Json.value :=
  Json.Object
    [ Gemini.member "id" (Gemini.str "evt_9");
      Gemini.member "date" (Gemini.str "1999-12-31");
      Gemini.member "type" (Gemini.str "commit");
      Gemini.member "title" (Gemini.str "chore: import legacy code");
      Gemini.member "branch" (Gemini.str "main");
      Gemini.member "author" (Gemini.str "alice") ].

(** The configuration of [alice] after the start-date input was cleared. *)
Definition undated : UserConfig :=
  mkUserConfig "ghp_0123456789" "alice" "history-weaver-demo"
    "" "2024-01-02" "React & TypeScript" 7 gitflow true
    ["pull_shark"; "pair_extraordinaire"].

End Sample.

(** ** More of the runtime: substring search and split *)

(** [s.includes(pat)] *)
Fixpoint includes (pat s : string) : bool :=
  match s with
  | EmptyString => prefix pat EmptyString
  | String _ r => prefix pat s || includes pat r
  end.

(** [s.split(sep)] for a separator of one character: the pieces between
    its occurrences, at least one, empty ones included. *)
Fixpoint split_on (sep : ascii) (s : string) : list string :=
  match s with
  | EmptyString => [EmptyString]
  | String c r =>
      if Ascii.eqb c sep then EmptyString :: split_on sep r
      else
        match split_on sep r with
        | [] => [String c EmptyString]
        | piece :: pieces => String c piece :: pieces
        end
  end.

(** [Math.round] on a rational: the nearest integer, halves upwards. *)
Definition Math_round (q : Q) : Z := Qfloor (q + (1 # 2)).

(** ** The calendar, for reading dates *)

Module Calendar.

Local Open Scope Z_scope.

(** The year, month and day that [JsDate.parse_date] reads in a string of
    the form YYYY-MM-DD, when they form a date. *)
Definition date_fields (s : string) : option (Z * Z * Z) :=
  if (String.length s =? 10)%nat
     && String.eqb (substring 4 1 s) "-" && String.eqb (substring 7 1 s) "-"
  then
    match JsDate.digits (substring 0 4 s), JsDate.digits (substring 5 2 s),
          JsDate.digits (substring 8 2 s) with
    | Some y, Some m, Some d =>
        if (1 <=? m) && (m <=? 12) && (1 <=? d)
           && (d <=? JsDate.days_in_month y m)
        then Some (y, m, d)
        else None
    | _, _, _ => None
    end
  else None.

(** The day after a day of the calendar. *)
Definition next_day (date : Z * Z * Z) : Z * Z * Z :=
  let '(y, m, d) := date in
  if d <? JsDate.days_in_month y m then (y, m, d + 1)
  else if m <? 12 then (y, m + 1, 1)
  else (y + 1, 1, 1).

(** The date part of [toISOString]. *)
Definition iso_date (date : Z * Z * Z) : string :=
  let '(y, m, d) := date in
  let year :=
    if (0 <=? y) && (y <=? 9999) then JsDate.pad 4 y
    else String (if y <? 0 then "-"%char else "+"%char)
           (JsDate.pad 6 (Z.abs y)) in
  (year ++ "-" ++ JsDate.pad 2 m ++ "-" ++ JsDate.pad 2 d)%string.

End Calendar.

(** ** services/geminiService.ts: the review comment *)

Module Review.

Local Open Scope string_scope.

(** The request of [generateReviewComment]: no schema, a cap on the
    output. *)
Record Request := mkRequest {
  model : string;
  contents : string;
  maxOutputTokens : Z
}.

Definition Generator := Request -> outcome Gemini.Response.

Definition request (prTitle : string) : Request :=
  mkRequest "gemini-2.5-flash"
    ("Generate a constructive, technical code review comment for a Pull Request titled "
       ++ dq ++ prTitle ++ dq ++ ".")
    100.

(** [response.text || fallback]: an absent or empty text gives way. *)
Definition text_or (response : Gemini.Response) (fallback : string) : string :=
  match Gemini.text response with
  | Some t => if truthy t then t else fallback
  | None => fallback
  end.

Definition generateReviewComment (generateContent : Generator)
  (prTitle codeSnippet : string) : outcome string :=
  match generateContent (request prTitle) with
  | Returned response =>
      Returned (text_or response "LGTM! Code structure looks solid.")
  | Thrown _ => Returned "Reviewed. Looks good to merge."
  end.

End Review.

(** ** constants.ts *)

Module Constants.

Local Open Scope string_scope.

Record Achievement := mkAchievement {
  id : string;
  name : string;
  description : string;
  icon : string;
  color : string
}.

Definition TECH_STACKS : list string :=
  [ "React & TypeScript"; "Node.js Microservices"; "Python Data Science";
    "Rust Systems Programming"; "Go Backend"; "Flutter Mobile App";
    "Next.js Fullstack" ].

Definition ACHIEVEMENTS : list Achievement :=
  [ mkAchievement "pull_shark" "Pull Shark"
      "Efficient PR creation and merging cycles." "GitPullRequest"
      "text-blue-400";
    mkAchievement "galaxy_brain" "Galaxy Brain"
      "High-quality discussion simulations on issues." "Zap"
      "text-purple-400";
    mkAchievement "pair_extraordinaire" "Pair Extraordinaire"
      "Frequent co-authored commits." "Users" "text-green-400";
    mkAchievement "yolo" "YOLO" "Direct-to-main commits simulated."
      "Crosshair" "text-orange-400";
    mkAchievement "quickdraw" "Quickdraw"
      "Rapid issue responses and closures." "Trophy" "text-yellow-400" ].

(** The identifiers of the catalog, which the achievement cards pass to
    [toggleAchievement]. *)
Definition achievement_ids : list string := map id ACHIEVEMENTS.

(** [DEFAULT_CONFIG], given the two dates it computes from the clock when
    the module loads: today a year ago, and today. *)
Definition DEFAULT_CONFIG (a_year_ago today : string) : UserConfig :=
  mkUserConfig "" "Ashraf-Morningstar" "history-weaver-demo" a_year_ago today
    "React & TypeScript" 7 gitflow true ["pull_shark"; "pair_extraordinaire"].

End Constants.

(** ** App.tsx: the views and their handlers *)

Module Views.

Local Open Scope string_scope.

(** *** StepIndicator *)

(** [['setup', 'config', 'blueprint', 'weaving'].indexOf(phase)] *)
Definition step_of (phase : SimulationPhase) : Z :=
  match phase with
  | setup => 0
  | config_phase => 1
  | blueprint => 2
  | weaving => 3
  | complete => -1
  end.

(** The [colorClass] of a step indicator. *)
Definition colorClass (step currentStep : Z) : string :=
  let isActive := (step =? currentStep)%Z in
  let isCompleted := (step <? currentStep)%Z in
  let colorClass := "text-slate-500 border-slate-700" in
  let colorClass :=
    if isActive then "text-cyan-400 border-cyan-400 bg-cyan-950/30"
    else colorClass in
  if isCompleted then "text-emerald-400 border-emerald-400 bg-emerald-950/30"
  else colorClass.

(** The stepper of [App]: four indicators, none once the phase is
    complete. *)
Definition stepper (phase : SimulationPhase) : list string :=
  match phase with
  | complete => []
  | _ => map (fun step => colorClass step (step_of phase)) [0; 1; 2; 3]%Z
  end.

(** *** SetupView *)

Record SetupState := mkSetupState {
  verifying : bool;
  error : option string
}.

(** The [disabled] attribute of the connect button. *)
Definition connect_disabled (st : SetupState) (config : UserConfig) : bool :=
  verifying st || negb (truthy (githubToken config))
  || negb (truthy (targetRepo config)).

(** [handleVerify], with the state [P] that its [onNext] prop acts on.
    The result holds the state of the view, what [onNext] made of [P] and
    the environment after the call. *)
Definition handleVerify (E : Weave.Env) {P : Type} (onNext : P -> P)
  (config : UserConfig) (st : SetupState) (p : P) (w : Weave.world E)
  : SetupState * P * Weave.world E :=
  let st := mkSetupState true (error st) in
  let st := mkSetupState (verifying st) None in
  match
    Weave.initGitHub E (githubToken config) (targetRepo config)
      (username config) w
  with
  | (Returned _, w') => (mkSetupState false (error st), onNext p, w')
  | (Thrown message, w') => (mkSetupState false (Some message), p, w')
  end.

(** A press on the connect button: a disabled button does nothing. *)
Definition press_connect (E : Weave.Env) {P : Type} (onNext : P -> P)
  (config : UserConfig) (st : SetupState) (p : P) (w : Weave.world E)
  : SetupState * P * Weave.world E :=
  if connect_disabled st config then (st, p, w)
  else handleVerify E onNext config st p w.

Definition with_targetRepo (repo : string) (c : UserConfig) : UserConfig :=
  mkUserConfig (githubToken c) (username c) repo (startDate c) (endDate c)
    (techStack c) (intensity c) (strategy c) (includeLfs c) (achievements c).

Definition with_owner_and_repo (owner repo : string) (c : UserConfig)
  : UserConfig :=
  mkUserConfig (githubToken c) owner repo (startDate c) (endDate c)
    (techStack c) (intensity c) (strategy c) (includeLfs c) (achievements c).

(** [handleRepoInput]: the configuration it passes to [setConfig] for the
    input value [val]. [pathname_of val] is [new URL(val).pathname], a
    throw when the value is no URL. *)
Definition handleRepoInput (pathname_of : string -> outcome string)
  (config : UserConfig) (val : string) : UserConfig :=
  if includes "github.com" val then
    match pathname_of val with
    | Returned pathname =>
        match filter truthy (split_on "/" pathname) with
        | owner :: repo :: _ => with_owner_and_repo owner repo config
        | _ => with_targetRepo val config
        end
    | Thrown _ => with_targetRepo val config
    end
  else with_targetRepo val config.

(** *** ConfigView *)

Definition with_achievements (l : list string) (c : UserConfig) : UserConfig :=
  mkUserConfig (githubToken c) (username c) (targetRepo c) (startDate c)
    (endDate c) (techStack c) (intensity c) (strategy c) (includeLfs c) l.

(** [toggleAchievement]: the configuration it passes to [setConfig]. *)
Definition toggleAchievement (config : UserConfig) (id : string) : UserConfig :=
  let newAchievements :=
    if existsb (String.eqb id) (achievements config)
    then filter (fun a => negb (String.eqb a id)) (achievements config)
    else (achievements config ++ [id])%list in
  with_achievements newAchievements config.

(** *** BlueprintView *)

Record ChartPoint := mkChartPoint {
  point_date : string;
  count : nat
}.

(** [date.split('T')[0]] *)
Definition day_of (date : string) : string :=
  hd EmptyString (split_on "T" date).

(** One step of the [reduce]: the first point of that day counts one
    more, or a new point is pushed at the end. *)
Fixpoint tally (day : string) (acc : list ChartPoint) : list ChartPoint :=
  match acc with
  | [] => [mkChartPoint day 1]
  | point :: rest =>
      if String.eqb (point_date point) day
      then mkChartPoint (point_date point) (count point + 1) :: rest
      else point :: tally day rest
  end.

Definition tallies (plan : list GitEvent) : list ChartPoint :=
  fold_left (fun acc event => tally (day_of (date event)) acc) plan [].

(** The comparator of the [sort],
    [new Date(a.date).getTime() - new Date(b.date).getTime()], as the
    sort reads it: [a] goes after [b] when the difference is positive; a
    difference that is NaN counts as zero. *)
Definition later (a b : ChartPoint) : bool :=
  match JsDate.of_string (point_date a), JsDate.of_string (point_date b) with
  | Some x, Some y => (0 <? x - y)%Z
  | _, _ => false
  end.

(** [Array.prototype.sort] is stable: on a comparator that orders the
    array consistently its result is the one of a stable insertion. *)
Fixpoint insert_point (p : ChartPoint) (sorted : list ChartPoint)
  : list ChartPoint :=
  match sorted with
  | [] => [p]
  | q :: rest =>
      if later p q then q :: insert_point p rest else p :: q :: rest
  end.

Definition sort_points (l : list ChartPoint) : list ChartPoint :=
  fold_right insert_point [] l.

Definition chartData (plan : list GitEvent) : list ChartPoint :=
  sort_points (tallies plan).

(** Reading a chart: the sum of its counts, its days, the count filed
    under a day (0 when the day has no point), the number of events of a
    plan that fall on a day, and the order of two points in time. *)
Definition total (l : list ChartPoint) : nat := list_sum (map count l).

Definition days (l : list ChartPoint) : list string := map point_date l.

Fixpoint filed (d : string) (l : list ChartPoint) : nat :=
  match l with
  | [] => 0
  | p :: r => if String.eqb (point_date p) d then count p else filed d r
  end.

Definition on_day (d : string) (plan : list GitEvent) : nat :=
  List.length (filter (fun e => String.eqb (day_of (date e)) d) plan).

Definition time_of (p : ChartPoint) : option Z :=
  JsDate.of_string (point_date p).

Definition dated_before (a b : ChartPoint) : Prop :=
  exists x y, time_of a = Some x /\ time_of b = Some y /\ (x <= y)%Z.

(** *** ExecutionView *)

(** The status line under the log. *)
Definition status_line (isWeaving : bool) : string :=
  if isWeaving then "EXECUTING LIVE ON GITHUB..." else "EXECUTION COMPLETE".

(** [{Math.round(progress)}%] *)
Definition percent_label (progress : Q) : string :=
  string_of_Z (Math_round progress) ++ "%".

(** Whether the New Simulation button is rendered:
    [!isWeaving && progress === 100]. *)
Definition done_button_shown (a : Weave.AppState) : bool :=
  negb (Weave.isWeaving a) && Qeq_bool (Weave.progress a) 100.

End Views.

(** ** App.tsx: the plan handler of the main component *)

Module App.

(** The component state that [handleGeneratePlan] writes. *)
Record PlanState := mkPlanState {
  phase : SimulationPhase;
  plan : Json.value;
  isGenerating : bool
}.

(** [handleGeneratePlan]: the state it leaves and how its promise
    settles. It awaits [generateSimulationPlan] outside any [try]: when
    that rejects, the two statements after the [await] do not run. *)
Definition handleGeneratePlan (generateContent : Gemini.Generator)
  (config : UserConfig) (st : PlanState) : outcome unit * PlanState :=
  let st := mkPlanState (phase st) (plan st) true in
  let st := mkPlanState blueprint (plan st) (isGenerating st) in
  match fst (Gemini.generateSimulationPlan generateContent config) with
  | Returned planData =>
      let st := mkPlanState (phase st) planData (isGenerating st) in
      (Returned tt, mkPlanState (phase st) (plan st) false)
  | Thrown reason => (Thrown reason, st)
  end.

End App.

(** ** More readings of a run *)

Module Readings.

Import Weave.

(** The calls to the remote-repository collaborator, in order. *)
Definition calls (t : list action) : list action :=
  filter
    (fun a =>
       match a with
       | CallInitGitHub _ _ _ | CallExecuteGitEvent _ _ => true
       | _ => false
       end) t.

(** The two log entries of an event, as shown, given how its remote call
    settled. *)
Definition event_entries (er : GitEvent * outcome string)
  : list (LogLevel * string) :=
  let '(event, r) := er in
  [ (info,
     ("Processing [" ++ toUpperCase (EventType_str (type event)) ++ "] "
        ++ title event ++ "...")%string);
    match r with
    | Returned resultMsg => (success, resultMsg)
    | Thrown reason => (error, ("Failed: " ++ reason)%string)
    end ].

End Readings.

(** ** More samples *)

Module Fixtures.

Local Open Scope string_scope.

Definition leap_eve : UserConfig :=
  mkUserConfig "ghp_0123456789" "alice" "history-weaver-demo"
    "2024-02-28" "2024-03-31" "React & TypeScript" 7 gitflow true
    ["pull_shark"].

Definition blank_plan : App.PlanState :=
  App.mkPlanState config_phase (Json.Array []) false.

Definition idle_setup : Views.SetupState := Views.mkSetupState false None.

(** A stand-in for [new URL(val).pathname] on values of the form
    scheme, [://], host, path: what follows the host, [/] when nothing
    does; a throw without [://]. *)
Fixpoint after_scheme (s : string) : option string :=
  match s with
  | EmptyString => None
  | String c r =>
      if prefix "://" s then Some (substring 3 (String.length s) s)
      else after_scheme r
  end.

Fixpoint from_slash (s : string) : string :=
  match s with
  | EmptyString => "/"
  | String c r => if Ascii.eqb c "/" then s else from_slash r
  end.

Definition pathname_of (val : string) : outcome string :=
  match after_scheme val with
  | Some rest => Returned (from_slash rest)
  | None => Thrown "Invalid URL"
  end.

Definition reviewer (text : option string) : Review.Generator :=
  fun _ => Returned (Gemini.mkResponse text).

Definition offline_reviewer : Review.Generator :=
  fun _ => Thrown "fetch failed".

Definition dated (d : string) : GitEvent :=
  mkGitEvent "e" d t_commit "work" "" (Some "main") None "alice" None.

Definition week : list GitEvent :=
  [ dated "2024-01-03T10:00:00.000Z"; dated "2024-01-01";
    dated "2024-01-03T18:30:00.000Z"; dated "2024-01-02T08:00:00.000Z";
    dated "2024-01-01T23:59:59.000Z"; dated "2024-01-03" ].

(** A remote repository that accepts one token and refuses every other,
    and one whose refusal quotes the token it was given; their state is
    a clock in ticks. *)
Definition guarded (valid : string) : Weave.Env :=
  Weave.mkEnv nat
    (fun token _ _ w =>
       (if String.eqb token valid then Returned tt
        else Thrown "Bad credentials",
        S w))
    (fun event _ w => (Returned ("Done: " ++ title event), S w))
    (fun w => "t" ++ string_of_nat w)
    (fun _ w => S w).

Definition echoing : Weave.Env :=
  Weave.mkEnv nat
    (fun token _ _ w => (Thrown ("Bad credentials for token " ++ token), S w))
    (fun event _ w => (Returned ("Done: " ++ title event), S w))
    (fun w => "t" ++ string_of_nat w)
    (fun _ w => S w).

Definition at_start (E : Weave.Env) (w : Weave.world E) : Weave.Store E :=
  Weave.mkStore E (Weave.mkAppState blueprint [] 0 false) w.

End Fixtures.

(** ** The IEEE 754 operations of the Standard Library, for comparison *)

Module Ieee754.

(** An integer, and the rational that a finite number denotes. *)
Definition of_Z (z : Z) : SpecFloat.spec_float :=
  SpecFloat.binary_normalize 53 1024 z 0 false.

Definition to_Q (x : SpecFloat.spec_float) : option Q :=
  match x with
  | SpecFloat.S754_zero _ => Some 0%Q
  | SpecFloat.S754_finite s m e =>
      Some (Qred (inject_Z (if s then Z.neg m else Z.pos m) * 2 ^ e)%Q)
  | _ => None
  end.

(** [((i + 1) / n) * 100] by the library's division and multiplication at
    the binary64 format. *)
Definition percent (i n : nat) : option Q :=
  to_Q
    (SpecFloat.SFmul 53 1024
       (SpecFloat.SFdiv 53 1024 (of_Z (Z.of_nat (i + 1))) (of_Z (Z.of_nat n)))
       (of_Z 100)).

(** The pairs of an index and a length up to [m]. *)
Definition grid (m : nat) : list (nat * nat) :=
  flat_map (fun n => map (fun i => (i, S n)) (seq 0 (S n))) (seq 0 m).

End Ieee754.

(** * The runtime model on known values *)

Module RuntimeFacts.

Local Open Scope string_scope.

Example parse_empty_array : Json.parse "[]" = Returned (Json.Array []).
Proof. reflexivity. Qed.

Example parse_scalars :
  Json.parse " [1, -0, 2.5e-3, true, false, null] " =
    Returned
      (Json.Array
         [ Json.Number "1"; Json.Number "-0"; Json.Number "2.5e-3";
           Json.Bool true; Json.Bool false; Json.Null ]).
Proof. reflexivity. Qed.

(** A repeated key keeps its first position and its last value; an
    escape denotes one code unit. *)
Example parse_object :
  Json.parse
    ("{" ++ dq ++ "a" ++ dq ++ ": [{}, []], "
       ++ dq ++ "b\n\u20ac" ++ dq ++ ": " ++ dq ++ dq ++ ", "
       ++ dq ++ "a" ++ dq ++ ": 3}") =
    Returned
      (Json.Object
         [ (Json.units "a", Json.Number "3");
           ([98; 10; 8364]%N, Json.Str []) ]).
Proof. reflexivity. Qed.

Example parse_rejects :
  forallb
    (fun text =>
       match Json.parse text with Thrown _ => true | Returned _ => false end)
    [ ""; "["; "[1,]"; "[1 2]"; "[1]]"; "{,}"; "01"; "1."; "-"; ".5"; "+1";
      "1e"; "tru"; "truefalse"; "nullx"; "undefined"; "NaN";
      "Sorry, no plan today." ] = true.
Proof. reflexivity. Qed.

Example clean_fenced_text :
  Gemini.clean ("```json" ++ nl ++ "[1, 2]" ++ nl ++ "```" ++ nl) = "[1, 2]".
Proof. reflexivity. Qed.

Example clean_blank_text : Gemini.clean ("  " ++ nl ++ "``` ") = "".
Proof. reflexivity. Qed.

Example date_of_epoch : JsDate.parse "1970-01-01" = Some 0%Z.
Proof. reflexivity. Qed.

Example date_of_2024 : JsDate.parse "2024-01-01" = Some 1704067200000%Z.
Proof. reflexivity. Qed.

Example date_with_time :
  JsDate.parse "2024-01-02T09:30:15.250Z" = Some 1704187815250%Z.
Proof. reflexivity. Qed.

Example dates_rejected :
  map JsDate.parse [ ""; "tomorrow"; "2024-13-01"; "2024-01-02T09:60Z" ] =
    repeat None 4.
Proof. reflexivity. Qed.

Example next_day_of_leap_eve :
  JsDate.toISOString
    (JsDate.of_time (JsDate.plus (JsDate.of_string "2024-02-28") 86400000)) =
    Returned "2024-02-29T00:00:00.000Z".
Proof. reflexivity. Qed.

Example next_day_of_year_end :
  JsDate.toISOString
    (JsDate.of_time (JsDate.plus (JsDate.of_string "2023-12-31") 86400000)) =
    Returned "2024-01-01T00:00:00.000Z".
Proof. reflexivity. Qed.

Example next_day_of_last_four_digit_year :
  JsDate.toISOString
    (JsDate.of_time (JsDate.plus (JsDate.of_string "9999-12-31") 86400000)) =
    Returned "+010000-01-01T00:00:00.000Z".
Proof. reflexivity. Qed.

Example iso_of_instant :
  JsDate.toISOString (Some 1730485923456%Z) =
    Returned "2024-11-01T18:32:03.456Z".
Proof. reflexivity. Qed.

Example iso_before_epoch :
  JsDate.toISOString (Some (-1)%Z) = Returned "1969-12-31T23:59:59.999Z".
Proof. reflexivity. Qed.

Example iso_of_invalid_date :
  JsDate.toISOString (JsDate.of_string "") = Thrown "Invalid time value".
Proof. reflexivity. Qed.

Example upper_case_of_types :
  map (fun t => toUpperCase (EventType_str t))
    [t_commit; t_branch; t_merge; t_issue; t_pr; t_tag] =
    ["COMMIT"; "BRANCH"; "MERGE"; "ISSUE"; "PR"; "TAG"].
Proof. reflexivity. Qed.

End RuntimeFacts.

(** * Properties of the binary64 rounding *)

Module NumberFacts.

Import Binary64.

Local Open Scope Q_scope.

(** *** Powers of two and binades *)

Lemma pow2_pos e : 0 < 2 ^ e.
Proof. apply Qpower_0_lt. reflexivity. Qed.

Lemma pow2_succ e : 2 ^ (e + 1) == 2 * 2 ^ e.
Proof. rewrite Qpower_plus by discriminate. rewrite Qpower_1_r. ring. Qed.

Lemma pow2_le a b : (a <= b)%Z -> 2 ^ a <= 2 ^ b.
Proof. intros H. apply Qpower_le_compat_l; [exact H | discriminate]. Qed.

Lemma pow2_lt_inv a b : 2 ^ a < 2 ^ b -> (a < b)%Z.
Proof. intros H. apply (Qpower_lt_compat_l_inv 2); [exact H | reflexivity]. Qed.

Lemma pow2_log2 a :
  (0 < a)%Z -> 2 ^ Z.log2 a <= inject_Z a /\ inject_Z a < 2 * 2 ^ Z.log2 a.
Proof.
  intros Ha. destruct (Z.log2_spec a Ha) as [Hlo Hhi].
  pose proof (Z.log2_nonneg a) as Hnn.
  assert (Hpow : forall n, (0 <= n)%Z -> 2 ^ n == inject_Z (2 ^ n)).
  { intros n Hn. rewrite Zpower_Qpower by exact Hn. reflexivity. }
  split.
  - rewrite (Hpow _ Hnn), <- Zle_Qle. exact Hlo.
  - rewrite <- pow2_succ, (Hpow (Z.log2 a + 1)%Z) by lia.
    rewrite <- Zlt_Qlt.
    replace (Z.log2 a + 1)%Z with (Z.succ (Z.log2 a)) by lia. exact Hhi.
Qed.

Lemma binade_spec q :
  0 < q -> 2 ^ binade q <= q /\ q < 2 ^ (binade q + 1).
Proof.
  intros Hq. destruct q as [a b].
  assert (Ha : (0 < a)%Z).
  { unfold Qlt in Hq. simpl in Hq. lia. }
  destruct (pow2_log2 a Ha) as [Ha1 Ha2].
  destruct (pow2_log2 (Zpos b) (Pos2Z.is_pos b)) as [Hb1 Hb2].
  pose proof (pow2_pos (Z.log2 a)) as HA.
  pose proof (pow2_pos (Z.log2 (Zpos b))) as HB.
  unfold binade. cbn [Qnum Qden].
  set (la := Z.log2 a) in *. set (lb := Z.log2 (Zpos b)) in *.
  assert (Hd : 2 ^ (la - lb) * 2 ^ lb == 2 ^ la).
  { rewrite <- Qpower_plus by discriminate. f_equiv. lia. }
  assert (Hq' : (a # b) * inject_Z (Zpos b) == inject_Z a).
  { rewrite (Qmake_Qdiv a b). field. discriminate. }
  pose proof (pow2_pos (la - lb)) as HD.
  set (q := a # b) in *. set (a' := inject_Z a) in *.
  set (b' := inject_Z (Zpos b)) in *.
  set (A := 2 ^ la) in *. set (B := 2 ^ lb) in *.
  destruct (Qle_bool (2 ^ (la - lb)) q) eqn:Hcmp.
  - apply Qle_bool_iff in Hcmp. split; [exact Hcmp|].
    rewrite pow2_succ. set (D := 2 ^ (la - lb)) in *. nra.
  - assert (Hlt : q < 2 ^ (la - lb)).
    { apply Qnot_le_lt. intros H. apply Qle_bool_iff in H. congruence. }
    replace (la - lb - 1 + 1)%Z with (la - lb)%Z by lia.
    split; [|exact Hlt].
    assert (Hhalf : 2 * 2 ^ (la - lb - 1) == 2 ^ (la - lb)).
    { rewrite <- pow2_succ. f_equiv. lia. }
    set (D := 2 ^ (la - lb)) in *. set (D' := 2 ^ (la - lb - 1)) in *.
    nra.
Qed.

Lemma binade_unique q k :
  2 ^ k <= q -> q < 2 ^ (k + 1) -> binade q = k.
Proof.
  intros Hlo Hhi.
  assert (Hq : 0 < q) by (pose proof (pow2_pos k); lra).
  destruct (binade_spec q Hq) as [Hlo' Hhi'].
  assert (binade q < k + 1)%Z by (apply pow2_lt_inv; lra).
  assert (k < binade q + 1)%Z by (apply pow2_lt_inv; lra).
  lia.
Qed.

Lemma binade_comp p q : 0 < p -> p == q -> binade p = binade q.
Proof.
  intros Hp Heq. symmetry. destruct (binade_spec p Hp).
  apply binade_unique; lra.
Qed.

Lemma binade_mono p q : 0 < p -> p <= q -> (binade p <= binade q)%Z.
Proof.
  intros Hp Hle.
  destruct (binade_spec p Hp) as [Hlo _].
  destruct (binade_spec q) as [_ Hhi]; [lra|].
  assert (binade p < binade q + 1)%Z by (apply pow2_lt_inv; lra).
  lia.
Qed.

(** *** Rounding to the nearest integer *)

Lemma nearest_even_bounds q :
  (Qfloor q <= nearest_even q <= Qfloor q + 1)%Z.
Proof.
  unfold nearest_even. cbv zeta.
  destruct (Qcompare (q - inject_Z (Qfloor q)) (1 # 2));
    [destruct (Z.even (Qfloor q))|..]; lia.
Qed.

Lemma nearest_even_comp p q : p == q -> nearest_even p = nearest_even q.
Proof.
  intros H. unfold nearest_even. cbv zeta.
  rewrite (Qfloor_comp _ _ H).
  assert (Hc : Qcompare (p - inject_Z (Qfloor q)) (1 # 2)
               = Qcompare (q - inject_Z (Qfloor q)) (1 # 2)).
  { apply Qcompare_comp; [rewrite H; reflexivity | reflexivity]. }
  rewrite Hc. reflexivity.
Qed.

Lemma nearest_even_Z z : nearest_even (inject_Z z) = z.
Proof.
  unfold nearest_even. cbv zeta. rewrite Qfloor_Z.
  assert (H : Qcompare (inject_Z z - inject_Z z) (1 # 2) = Lt).
  { apply (proj1 (Qlt_alt _ _)). generalize (inject_Z z). intros x. lra. }
  rewrite H. reflexivity.
Qed.

Lemma nearest_even_mono p q : p <= q -> (nearest_even p <= nearest_even q)%Z.
Proof.
  intros Hle. pose proof (Qfloor_resp_le _ _ Hle) as Hf.
  pose proof (nearest_even_bounds p). pose proof (nearest_even_bounds q).
  destruct (Z.eq_dec (Qfloor p) (Qfloor q)) as [Heq|Hne]; [|lia].
  unfold nearest_even. cbv zeta. rewrite Heq.
  generalize (inject_Z (Qfloor q)). intros x.
  destruct (Qcompare_spec (p - x) (1 # 2)) as [Hp|Hp|Hp];
    destruct (Qcompare_spec (q - x) (1 # 2)) as [Hq|Hq|Hq];
    try lia; try (exfalso; lra);
    destruct (Z.even (Qfloor q)); lia.
Qed.

Lemma nearest_even_error q :
  Qabs (inject_Z (nearest_even q) - q) <= 1 # 2.
Proof.
  pose proof (Qfloor_le q) as Hlo. pose proof (Qlt_floor q) as Hhi.
  rewrite inject_Z_plus in Hhi. change (inject_Z 1) with 1 in Hhi.
  unfold nearest_even. cbv zeta.
  apply Qabs_Qle_condition.
  destruct (Qcompare_spec (q - inject_Z (Qfloor q)) (1 # 2)) as [H|H|H];
    [destruct (Z.even (Qfloor q))|..];
    rewrite ?inject_Z_plus; change (inject_Z 1) with 1;
    generalize dependent (inject_Z (Qfloor q)); intros x Hlo Hhi H;
    split; lra.
Qed.

(** *** Rounding to binary64 *)

Lemma Qabs_of_pos q : 0 < q -> Qabs q = q.
Proof.
  destruct q as [a b]. unfold Qlt. simpl. intros H.
  unfold Qabs. rewrite Z.abs_eq by lia. reflexivity.
Qed.

Lemma round_pos q :
  0 < q ->
  round q == inject_Z (nearest_even (q / 2 ^ exponent q)) * 2 ^ exponent q.
Proof.
  intros Hq. unfold round.
  assert (H0 : Qeq_bool q 0 = false).
  { apply not_true_is_false. intros H. apply Qeq_bool_iff in H. lra. }
  rewrite H0, Qred_correct. unfold ulp. rewrite (Qabs_of_pos q Hq).
  reflexivity.
Qed.

Lemma round_zero q : q == 0 -> round q = 0.
Proof.
  intros H. unfold round.
  rewrite (proj2 (Qeq_bool_iff q 0) H). reflexivity.
Qed.

Lemma div_pow2 q e : q / 2 ^ e * 2 ^ e == q.
Proof. field. apply Qpower_not_0. discriminate. Qed.

Lemma round_nonneg q : 0 <= q -> 0 <= round q.
Proof.
  intros Hq. destruct (Qeq_dec q 0) as [H0|H0].
  - rewrite (round_zero q H0). lra.
  - assert (Hpos : 0 < q) by (apply Qle_lteq in Hq; destruct Hq as [H|H]; [exact H | exfalso; apply H0; symmetry; exact H]).
    rewrite (round_pos q Hpos).
    pose proof (pow2_pos (exponent q)) as He.
    apply Qmult_le_0_compat; [|lra].
    change 0 with (inject_Z 0). rewrite <- Zle_Qle.
    rewrite <- (nearest_even_Z 0). apply nearest_even_mono.
    change (inject_Z 0) with 0.
    apply Qle_shift_div_l; [exact He | lra].
Qed.

Lemma round_comp p q : p == q -> round p = round q.
Proof.
  intros Heq. destruct (Qeq_dec p 0) as [H0|H0].
  - rewrite (round_zero p H0), (round_zero q); [reflexivity|].
    rewrite <- Heq. exact H0.
  - unfold round.
    assert (Hp : Qeq_bool p 0 = false).
    { apply not_true_is_false. intros H. apply Qeq_bool_iff in H. tauto. }
    assert (Hq : Qeq_bool q 0 = false).
    { apply not_true_is_false. intros H. apply Qeq_bool_iff in H.
      apply H0. rewrite Heq. exact H. }
    rewrite Hp, Hq. apply Qred_complete.
    assert (Hu : ulp p = ulp q).
    { unfold ulp, exponent. f_equal. f_equal. f_equal.
      apply binade_comp; [|rewrite Heq; reflexivity].
      pose proof (Qabs_nonneg p) as Hn.
      apply Qle_lteq in Hn. destruct Hn as [Hn|Hn]; [exact Hn|].
      exfalso. apply H0. symmetry in Hn.
      pose proof (Qabs_Qle_condition p 0) as [Hc _].
      destruct Hc as [Hc1 Hc2]; [rewrite Hn; lra|]. lra. }
    rewrite Hu.
    rewrite (nearest_even_comp (p / ulp q) (q / ulp q));
      [reflexivity | rewrite Heq; reflexivity].
Qed.

Lemma round_mono p q : 0 <= p -> p <= q -> round p <= round q.
Proof.
  intros Hp Hle. destruct (Qeq_dec p 0) as [H0|H0].
  - rewrite (round_zero p H0). apply round_nonneg. lra.
  - assert (Hpos : 0 < p).
    { apply Qle_lteq in Hp. destruct Hp as [H|H]; [exact H|].
      exfalso. apply H0. symmetry. exact H. }
    assert (Hqpos : 0 < q) by lra.
    rewrite (round_pos p Hpos), (round_pos q Hqpos).
    pose proof (binade_mono p q Hpos Hle) as Hb.
    pose proof (pow2_pos (exponent p)) as Hep.
    pose proof (pow2_pos (exponent q)) as Heq.
    destruct (Z.eq_dec (exponent p) (exponent q)) as [He|He].
    + rewrite He in *. apply Qmult_le_compat_r; [|lra].
      rewrite <- Zle_Qle. apply nearest_even_mono.
      apply Qmult_le_compat_r; [exact Hle|].
      apply Qinv_le_0_compat. lra.
    + assert (Hlt : (exponent p < exponent q)%Z) by (unfold exponent in *; lia).
      assert (Heq' : exponent q = (binade q - 52)%Z) by (unfold exponent in *; lia).
      assert (Hep' : (binade p - 52 <= exponent p)%Z) by (unfold exponent; lia).
      destruct (binade_spec p Hpos) as [_ Hphi].
      destruct (binade_spec q Hqpos) as [Hqlo _].
      (* upper bound on the rounded p *)
      assert (Hup : inject_Z (nearest_even (p / 2 ^ exponent p)) * 2 ^ exponent p
                    <= 2 ^ (exponent p + 53)).
      { rewrite (Qpower_plus 2 (exponent p) 53) by discriminate.
        rewrite (Qmult_comm (2 ^ exponent p)).
        apply Qmult_le_compat_r; [|lra].
        assert (H53 : 2 ^ 53 == inject_Z (2 ^ 53)) by reflexivity.
        rewrite H53. rewrite <- Zle_Qle.
        rewrite <- (nearest_even_Z (2 ^ 53)). apply nearest_even_mono.
        rewrite <- H53. apply Qle_shift_div_r; [exact Hep|].
        rewrite <- Qpower_plus by discriminate.
        apply Qlt_le_weak. eapply Qlt_le_trans; [exact Hphi|].
        apply pow2_le. lia. }
      assert (Hdown : 2 ^ (exponent q + 52)
                      <= inject_Z (nearest_even (q / 2 ^ exponent q)) * 2 ^ exponent q).
      { rewrite (Qpower_plus 2 (exponent q) 52) by discriminate.
        rewrite (Qmult_comm (2 ^ exponent q)).
        apply Qmult_le_compat_r; [|lra].
        assert (H52 : 2 ^ 52 == inject_Z (2 ^ 52)) by reflexivity.
        rewrite H52. rewrite <- Zle_Qle.
        rewrite <- (nearest_even_Z (2 ^ 52)) at 1. apply nearest_even_mono.
        rewrite <- H52. apply Qle_shift_div_l; [exact Heq|].
        rewrite <- Qpower_plus by discriminate.
        eapply Qle_trans; [|exact Hqlo]. apply pow2_le. lia. }
      eapply Qle_trans; [exact Hup|]. eapply Qle_trans; [|exact Hdown].
      apply pow2_le. lia.
Qed.

Lemma round_error q :
  2 ^ (-1022) <= q -> Qabs (round q - q) <= q * 2 ^ (-53).
Proof.
  intros Hq.
  assert (Hpos : 0 < q) by (pose proof (pow2_pos (-1022)); lra).
  destruct (binade_spec q Hpos) as [Hlo Hhi].
  assert (Hb : (-1022 <= binade q)%Z).
  { assert (-1022 < binade q + 1)%Z by (apply pow2_lt_inv; lra). lia. }
  assert (He : exponent q = (binade q - 52)%Z) by (unfold exponent; lia).
  rewrite (round_pos q Hpos), He.
  set (e := (binade q - 52)%Z) in *.
  pose proof (pow2_pos e) as Hpe.
  pose proof (nearest_even_error (q / 2 ^ e)) as Herr.
  assert (Hscale : inject_Z (nearest_even (q / 2 ^ e)) * 2 ^ e - q
                   == (inject_Z (nearest_even (q / 2 ^ e)) - q / 2 ^ e) * 2 ^ e).
  { field. apply Qpower_not_0. discriminate. }
  rewrite Hscale, Qabs_Qmult, (Qabs_pos (2 ^ e)) by lra.
  assert (Hq53 : 2 ^ e * (1 # 2) <= q * 2 ^ (-53)).
  { assert (Hsplit : 2 ^ binade q * 2 ^ (-53) == 2 ^ e * (1 # 2)).
    { unfold e. rewrite (Qpower_minus 2 (binade q) 52) by discriminate.
      change (2 ^ (-53)) with (1 # 9007199254740992).
      change (2 ^ 52) with (4503599627370496 # 1). field. }
    rewrite <- Hsplit. apply Qmult_le_compat_r; [exact Hlo|]. discriminate. }
  eapply Qle_trans; [|exact Hq53].
  rewrite (Qmult_comm (2 ^ e)).
  apply Qmult_le_compat_r; [exact Herr | lra].
Qed.

(** *** Against the Standard Library

    On every index and length up to 40 the progress value is the one
    that the library's IEEE 754 division and multiplication give. *)
Example percent_agrees_with_SpecFloat :
  forallb
    (fun p =>
       match Ieee754.percent (fst p) (snd p) with
       | Some q => Qeq_bool q (Weave.percent (fst p) (snd p))
       | None => false
       end)
    (Ieee754.grid 40) = true.
Proof. vm_compute. reflexivity. Qed.

Example quotients_agree_with_SpecFloat :
  map (fun p => Some (div (inject_Z (fst p)) (inject_Z (snd p))))
    [ (1, 3); (2, 3); (1, 10); (23, 40); (1, 4294967295);
      (4294967294, 4294967295) ]%Z =
  map (fun p =>
         Ieee754.to_Q
           (SpecFloat.SFdiv 53 1024 (Ieee754.of_Z (fst p))
              (Ieee754.of_Z (snd p))))
    [ (1, 3); (2, 3); (1, 10); (23, 40); (1, 4294967295);
      (4294967294, 4294967295) ]%Z.
Proof. vm_compute. reflexivity. Qed.

End NumberFacts.


(** * Properties of the plan generator adapter *)

Module GeminiFacts.
Import Gemini.

Local Open Scope Z_scope.

(** *** Dates *)

Lemma digits_from_bound s :
  forall acc v,
    0 <= acc ->
    JsDate.digits_from acc s = Some v ->
    acc * 10 ^ Z.of_nat (String.length s) <= v
      < (acc + 1) * 10 ^ Z.of_nat (String.length s).
Proof.
  induction s as [|c s IH]; intros acc v Hacc Hv.
  - simpl in *. injection Hv as <-. lia.
  - cbn [JsDate.digits_from] in Hv.
    destruct (JsDate.digit c) as [d|] eqn:Hd; [|discriminate].
    assert (Hdigit : 0 <= d <= 9).
    { unfold JsDate.digit in Hd.
      destruct ((48 <=? Z.of_nat (nat_of_ascii c))
                && (Z.of_nat (nat_of_ascii c) <=? 57)) eqn:Hrange;
        [|discriminate].
      injection Hd as <-. apply andb_prop in Hrange. lia. }
    apply IH in Hv; [|lia].
    cbn [String.length]. rewrite Nat2Z.inj_succ, Z.pow_succ_r by lia.
    nia.
Qed.

Lemma substring_length_le s :
  forall n m, (String.length (substring n m s) <= m)%nat.
Proof.
  induction s as [|c s IH]; intros [|n] [|m]; simpl; try lia.
  - specialize (IH 0%nat m). lia.
  - apply (IH n 0%nat).
  - apply (IH n (S m)).
Qed.

Lemma digits_bound s n m v :
  JsDate.digits (substring n m s) = Some v ->
  0 <= v < 10 ^ Z.of_nat m.
Proof.
  unfold JsDate.digits.
  destruct (substring n m s) as [|c r] eqn:Hsub; [discriminate|].
  intros Hv. apply digits_from_bound in Hv; [|lia].
  pose proof (substring_length_le s n m) as Hlen. rewrite Hsub in Hlen.
  assert (10 ^ Z.of_nat (String.length (String c r)) <= 10 ^ Z.of_nat m)
    by (apply Z.pow_le_mono_r; lia).
  lia.
Qed.

Lemma days_in_month_le y m : JsDate.days_in_month y m <= 31.
Proof.
  unfold JsDate.days_in_month.
  destruct (m =? 2); [destruct (JsDate.is_leap y); lia|].
  destruct ((m =? 4) || (m =? 6) || (m =? 9) || (m =? 11))%bool; lia.
Qed.

Lemma days_from_civil_bound y m d :
  0 <= y <= 9999 -> 1 <= m <= 12 -> 1 <= d <= 31 ->
  -719528 <= JsDate.days_from_civil y m d <= 2932899.
Proof.
  intros Hy Hm Hd. unfold JsDate.days_from_civil.
  destruct (Z.leb_spec m 2); Z.div_mod_to_equations; lia.
Qed.

(** A calendar date of the form YYYY-MM-DD lies between the years 0 and
    9999, well inside the range of time values. *)
Lemma parse_date_bound s t :
  JsDate.parse_date s = Some t ->
  -62167219200000 <= t <= 253402473600000.
Proof.
  unfold JsDate.parse_date.
  destruct ((String.length s =? 10)%nat
            && String.eqb (substring 4 1 s) "-"
            && String.eqb (substring 7 1 s) "-")%bool; [|discriminate].
  destruct (JsDate.digits (substring 0 4 s)) as [y|] eqn:Hy; [|discriminate].
  destruct (JsDate.digits (substring 5 2 s)) as [m|] eqn:Hm; [|discriminate].
  destruct (JsDate.digits (substring 8 2 s)) as [d|] eqn:Hd; [|discriminate].
  destruct ((1 <=? m) && (m <=? 12) && (1 <=? d)
            && (d <=? JsDate.days_in_month y m))%bool eqn:Hrange;
    [|discriminate].
  intros Ht. injection Ht as <-.
  apply digits_bound in Hy. change (10 ^ Z.of_nat 4) with 10000 in Hy.
  repeat (apply andb_prop in Hrange; destruct Hrange as [Hrange ?]).
  pose proof (days_in_month_le y m).
  pose proof (days_from_civil_bound y m d) as Hdays.
  unfold JsDate.msPerDay. lia.
Qed.

Lemma parse_of_date s t :
  JsDate.parse_date s = Some t -> JsDate.parse s = Some t.
Proof.
  intros Ht. unfold JsDate.parse.
  assert (Hlen : (String.length s =? 10)%nat = true).
  { unfold JsDate.parse_date in Ht.
    destruct (String.length s =? 10)%nat; [reflexivity | discriminate]. }
  rewrite Hlen. exact Ht.
Qed.

Lemma toISOString_defined z :
  exists iso, JsDate.toISOString (Some z) = Returned iso.
Proof.
  unfold JsDate.toISOString.
  destruct (JsDate.civil_from_days (z / JsDate.msPerDay)) as [[y m] d].
  eexists. reflexivity.
Qed.

(** With a calendar date as start date, the handler returns its two
    events; the second is dated one day later, as a full timestamp. *)
Lemma fallback_defined c t :
  JsDate.parse_date (startDate c) = Some t ->
  exists next_day,
    JsDate.toISOString (Some (t + 86400000)) = Returned next_day
    /\ fallback c = Returned (two_events (startDate c) next_day (username c)).
Proof.
  intros Ht. pose proof (parse_date_bound _ _ Ht) as Hbound.
  destruct (toISOString_defined (t + 86400000)) as [next_day Hiso].
  exists next_day. split; [exact Hiso|].
  unfold fallback, JsDate.of_string, JsDate.of_time.
  rewrite (parse_of_date _ _ Ht). unfold JsDate.TimeClip, JsDate.plus.
  replace (Z.abs t <=? 8640000000000000) with true
    by (symmetry; apply Z.leb_le; lia).
  replace (Z.abs (t + 86400000) <=? 8640000000000000) with true
    by (symmetry; apply Z.leb_le; lia).
  rewrite Hiso. reflexivity.
Qed.

(** *** The [try] block *)

Lemma generate_fails_iff g c reason :
  generate g c = Thrown reason <-> generation_fails g c reason.
Proof.
  unfold generate. split.
  - destruct (g (request c)) as [response|why] eqn:Hg.
    + destruct (truthy (clean (response_text response))) eqn:Htext.
      * intros Hparse. exact (parse_failure g c response reason Hg Htext Hparse).
      * intros H. injection H as <-.
        exact (empty_response g c response Hg Htext).
    + intros H. injection H as <-. exact (collaborator_fault g c why Hg).
  - intros [why Hg | response Hg Htext | response why Hg Htext Hparse];
      rewrite Hg; try rewrite Htext; try assumption; reflexivity.
Qed.

Lemma generate_succeeds_iff g c plan :
  generate g c = Returned plan <->
  exists response,
    g (request c) = Returned response
    /\ truthy (clean (response_text response)) = true
    /\ Json.parse (clean (response_text response)) = Returned plan.
Proof.
  unfold generate. split.
  - destruct (g (request c)) as [response|why]; [|discriminate].
    destruct (truthy (clean (response_text response))) eqn:Htext;
      [|discriminate].
    intros Hparse. exists response. repeat split; assumption.
  - intros [response [Hg [Htext Hparse]]]. rewrite Hg, Htext. exact Hparse.
Qed.

(** *** Claims on [generateSimulationPlan] *)

(** C1. With the start date empty, as the date input leaves it once
    cleared, every kind of generation failure ends in a rejected promise:
    the handler of the [catch] block throws "Invalid time value" while it
    builds the second date, and no fallback Plan is returned. *)
Theorem fallback_throws_on_cleared_start_date :
  generateSimulationPlan Sample.unreachable Sample.undated =
    (Thrown "Invalid time value", [("AI Generation failed:", "fetch failed")])
  /\ generateSimulationPlan Sample.silent Sample.undated =
       (Thrown "Invalid time value",
        [("AI Generation failed:", "No data returned from AI")])
  /\ generateSimulationPlan (Sample.answering "Sorry, no plan today.")
       Sample.undated =
       (Thrown "Invalid time value",
        [("AI Generation failed:", "SyntaxError: invalid JSON text")]).
Proof. vm_compute. repeat split. Qed.

(** C2 as stated fails: for a valid configuration and a generator that
    succeeds, the returned Plan can be empty, and can hold an event dated
    outside the window. *)
Lemma generated_plan_is_not_checked :
  Spec.validConfig Sample.alice = true
  /\ (fst (generateSimulationPlan (Sample.answering "[]") Sample.alice) =
        Returned (Json.Array [])
      /\ Spec.nonempty_within_window Sample.alice (Json.Array []) = false)
  /\ (fst (generateSimulationPlan (Sample.answering Sample.stale_response)
             Sample.alice) =
        Returned (Json.Array [Sample.stale_event])
      /\ Spec.nonempty_within_window Sample.alice
           (Json.Array [Sample.stale_event]) = false).
Proof. vm_compute. repeat split. Qed.

(** C2, amended. Either the generator resolves with a text that, cleaned
    of its code fences and trimmed, is non-empty and parses, and the parsed
    value is returned as it is, unchecked; or generation fails in one of
    its three kinds, the failure is written to the console and the handler
    of the [catch] block runs, which for a start date of the form
    YYYY-MM-DD returns the two fallback events. *)
Theorem plan_is_parsed_value_or_fallback :
  forall (g : Generator) (c : UserConfig),
    (exists response plan,
       g (request c) = Returned response
       /\ truthy (clean (response_text response)) = true
       /\ Json.parse (clean (response_text response)) = Returned plan
       /\ generateSimulationPlan g c = (Returned plan, []))
    \/ (exists reason,
          generation_fails g c reason
          /\ generateSimulationPlan g c =
               (fallback c, [("AI Generation failed:", reason)])
          /\ forall t,
               JsDate.parse_date (startDate c) = Some t ->
               exists next_day,
                 JsDate.toISOString (Some (t + 86400000)) = Returned next_day
                 /\ fallback c =
                      Returned
                        (two_events (startDate c) next_day (username c))).
Proof.
  intros g c. unfold generateSimulationPlan.
  destruct (generate g c) as [plan|reason] eqn:Hgen.
  - left. apply generate_succeeds_iff in Hgen.
    destruct Hgen as [response [Hg [Htext Hparse]]].
    exists response, plan. repeat split; assumption.
  - right. exists reason. split; [apply generate_fails_iff; exact Hgen|].
    split; [reflexivity|]. intros t Ht. exact (fallback_defined c t Ht).
Qed.

(** C2 amended, on a generator that resolves with no text and a start
    date of the form YYYY-MM-DD: generation fails and the two fallback
    events are returned. *)
Lemma plan_is_parsed_value_or_fallback_witness :
  exists reason next_day,
    generation_fails Sample.silent Sample.alice reason
    /\ generateSimulationPlan Sample.silent Sample.alice =
         (Returned
            (two_events (startDate Sample.alice) next_day
               (username Sample.alice)),
          [("AI Generation failed:", reason)]).
Proof.
  destruct (plan_is_parsed_value_or_fallback Sample.silent Sample.alice)
    as [[response [plan [Hg [Htext _]]]] | [reason [Hfails [Hrun Hdate]]]].
  - injection Hg as <-. discriminate Htext.
  - destruct (Hdate 1704067200000 eq_refl) as [next_day [_ Hfallback]].
    exists reason, next_day. split; [exact Hfails|].
    rewrite Hrun, Hfallback. reflexivity.
Defined.

(** The two branches of C2 amended, on samples: a fenced empty array is
    returned as the empty Plan, and a silent generator gives the
    fallback. *)
Example plan_of_fenced_empty_array :
  generateSimulationPlan
    (Sample.answering ("```json" ++ nl ++ "[]" ++ nl ++ "```")) Sample.alice =
    (Returned (Json.Array []), []).
Proof. vm_compute. reflexivity. Qed.

Example plan_of_silent_generator :
  generateSimulationPlan Sample.silent Sample.alice =
    (Returned (two_events "2024-01-01" "2024-01-02T00:00:00.000Z" "alice"),
     [("AI Generation failed:", "No data returned from AI")]).
Proof. vm_compute. reflexivity. Qed.

(** C7 as stated fails: in the fallback Plan for the start date 2024-01-01
    the second event is dated with a full timestamp, not "2024-01-02". *)
Lemma fallback_second_date_is_a_timestamp :
  exists first second,
    fst (generateSimulationPlan Sample.unreachable Sample.alice) =
      Returned (Json.Array [first; second])
    /\ Json.field "type" second = Some (str "branch")
    /\ Json.field "date" second = Some (str "2024-01-02T00:00:00.000Z")
    /\ Json.field "date" second <> Some (str "2024-01-02").
Proof.
  vm_compute. eexists. eexists. split; [reflexivity|].
  repeat split. discriminate.
Qed.

(** C7, amended. Whenever generation fails, the result depends on the
    start date and the username alone: two failing calls that agree on them
    settle alike, whatever the generators did and whatever the other
    fields; for a start date of the form YYYY-MM-DD they return the same
    two events. For the start date 2024-01-01 and the username alice these
    are a commit event dated "2024-01-01" on branch main, then a branch
    event dated "2024-01-02T00:00:00.000Z" on branch feature/auth-system,
    both authored by alice. *)
Theorem fallback_is_deterministic :
  forall (g1 g2 : Generator) (c1 c2 : UserConfig) reason1 reason2,
    generation_fails g1 c1 reason1 ->
    generation_fails g2 c2 reason2 ->
    startDate c1 = startDate c2 ->
    username c1 = username c2 ->
    fst (generateSimulationPlan g1 c1) = fst (generateSimulationPlan g2 c2)
    /\ (forall t,
          JsDate.parse_date (startDate c1) = Some t ->
          exists next_day,
            fst (generateSimulationPlan g1 c1) =
              Returned (two_events (startDate c1) next_day (username c1)))
    /\ (startDate c1 = "2024-01-01"%string ->
        username c1 = "alice"%string ->
        fst (generateSimulationPlan g1 c1) =
          Returned
            (two_events "2024-01-01" "2024-01-02T00:00:00.000Z" "alice")).
Proof.
  intros g1 g2 c1 c2 reason1 reason2 Hf1 Hf2 Hdate Huser.
  apply generate_fails_iff in Hf1. apply generate_fails_iff in Hf2.
  unfold generateSimulationPlan. rewrite Hf1, Hf2. cbn [fst].
  split; [|split].
  - unfold fallback. rewrite Hdate, Huser. reflexivity.
  - intros t Ht. destruct (fallback_defined c1 t Ht) as [next_day [_ Hfb]].
    exists next_day. exact Hfb.
  - intros Hstart Halice. unfold fallback. rewrite Hstart, Halice.
    vm_compute. reflexivity.
Qed.

Lemma fallback_is_deterministic_witness :
  fst (generateSimulationPlan Sample.unreachable Sample.alice) =
    fst (generateSimulationPlan Sample.silent
           (with_token "ghp_9876543210" Sample.alice))
  /\ (forall t,
        JsDate.parse_date (startDate Sample.alice) = Some t ->
        exists next_day,
          fst (generateSimulationPlan Sample.unreachable Sample.alice) =
            Returned
              (two_events (startDate Sample.alice) next_day
                 (username Sample.alice)))
  /\ (startDate Sample.alice = "2024-01-01"%string ->
      username Sample.alice = "alice"%string ->
      fst (generateSimulationPlan Sample.unreachable Sample.alice) =
        Returned (two_events "2024-01-01" "2024-01-02T00:00:00.000Z" "alice")).
Proof.
  exact (fallback_is_deterministic Sample.unreachable Sample.silent
           Sample.alice (with_token "ghp_9876543210" Sample.alice)
           "fetch failed" "No data returned from AI"
           (collaborator_fault Sample.unreachable Sample.alice "fetch failed"
              eq_refl)
           (empty_response Sample.silent
              (with_token "ghp_9876543210" Sample.alice)
              (mkResponse None) eq_refl eq_refl)
           eq_refl eq_refl).
Defined.

End GeminiFacts.

(** * Properties of the weaving executor *)

Module WeaveFacts.
Import Weave.

Section Run.

Variable E : Env.

Lemma weave_event_run config plan i event (s : Store E) :
  nth_error plan i = Some event ->
  weave_event E config plan i s =
    let '(r, w) := executeGitEvent E event config (env s) in
    let a := mkAttempt i event (toLocaleTimeString E (env s)) r
               (toLocaleTimeString E w) in
    (Returned tt,
     mkStore E
       (mkAppState (phase (app s)) (logs (app s) ++ attempt_logs a)
          (percent i (List.length plan)) (isWeaving (app s)))
       (elapse E 800 w),
     attempt_actions config (List.length plan) a).
Proof.
  intros Hnth. unfold weave_event. rewrite Hnth.
  unfold bind, try_catch, addLog, await_executeGitEvent, setProgress,
    await_timeout, emit. simpl.
  destruct (executeGitEvent E event config (env s)) as [[resultMsg|reason] w];
    simpl; rewrite <- app_assoc; reflexivity.
Qed.

Lemma skipn_nth_error {A} (l : list A) i :
  (i < List.length l)%nat ->
  exists x, nth_error l i = Some x /\ skipn i l = x :: skipn (S i) l.
Proof.
  revert i. induction l as [|y l IH]; intros i Hi; simpl in Hi.
  - lia.
  - destruct i as [|i].
    + exists y. split; reflexivity.
    + destruct (IH i) as [x [Hx Hs]]; [lia|].
      exists x. split; [exact Hx | exact Hs].
Qed.

(** The loop, from index [i] for [k] more rounds: it never throws, and
    its trace is one block of actions per remaining event. *)
Lemma for_loop_run config plan k :
  forall i (s : Store E),
    (i + k = List.length plan)%nat ->
    exists atts s',
      for_loop E k i (weave_event E config plan) s =
        (Returned tt, s',
         flat_map (attempt_actions config (List.length plan)) atts)
      /\ map a_event atts = skipn i plan
      /\ map a_index atts = seq i k
      /\ phase (app s') = phase (app s)
      /\ isWeaving (app s') = isWeaving (app s)
      /\ logs (app s') = logs (app s) ++ flat_map attempt_logs atts.
Proof.
  induction k as [|k IH]; intros i s Hlen.
  - exists [], s. simpl. unfold ret.
    rewrite skipn_all2 by lia. rewrite app_nil_r. repeat split.
  - destruct (skipn_nth_error plan i) as [event [Hnth Hskip]]; [lia|].
    simpl. unfold bind at 1. rewrite (weave_event_run config plan i event s Hnth).
    destruct (executeGitEvent E event config (env s)) as [r w].
    cbv beta iota zeta.
    match goal with
    | |- context [for_loop E k (S i) _ ?s1] =>
        destruct (IH (S i) s1) as
          [atts [s' [Hrun [Hev [Hidx [Hph [Hw Hlogs]]]]]]]; [lia|];
        rewrite Hrun
    end.
    exists (mkAttempt i event (toLocaleTimeString E (env s)) r
              (toLocaleTimeString E w) :: atts), s'.
    simpl in *. rewrite Hev, Hidx, Hph, Hw, Hlogs, Hskip.
    rewrite <- app_assoc. repeat split.
Qed.

(** A run whose connection step succeeds. *)
Lemma handleWeave_connected config plan (s : Store E) w :
  initGitHub E (githubToken config) (targetRepo config) (username config)
    (env s) = (Returned tt, w) ->
  exists atts s' t2,
    handleWeave E config plan s =
      (Returned tt, s',
       connected_trace config plan (toLocaleTimeString E (env s))
         (toLocaleTimeString E w) t2 atts)
    /\ map a_event atts = plan
    /\ map a_index atts = seq 0 (List.length plan)
    /\ app s' =
         mkAppState complete
           (connected_logs config plan (toLocaleTimeString E (env s))
              (toLocaleTimeString E w) t2 atts)
           100 false.
Proof.
  intros Hinit.
  unfold handleWeave, try_finally, try_catch, bind, await_initGitHub,
    addLog, setPhase, setLogs, setProgress, setIsWeaving, emit.
  cbn [app env]. rewrite Hinit. cbv beta iota zeta. cbn [app env].
  match goal with
  | |- context [for_loop E _ 0 _ ?s1] =>
      destruct (for_loop_run config plan (List.length plan) 0 s1) as
        [atts [s' [Hrun [Hev [Hidx [Hph [Hw Hlogs]]]]]]]; [lia|];
      rewrite Hrun
  end.
  cbv beta iota zeta. cbn [app env phase logs progress isWeaving] in *.
  exists atts. eexists. exists (toLocaleTimeString E (env s')).
  split; [|split; [exact Hev | split; [exact Hidx|]]].
  - unfold connected_trace, opening, closing, connect_actions,
      connecting_message, connected_message, closing_message.
    cbn [List.app]. rewrite <- !app_assoc. reflexivity.
  - cbn [app]. rewrite Hlogs. cbn [List.app].
    unfold connected_logs, connecting_message, connected_message,
      closing_message. reflexivity.
Qed.

(** A run whose connection step fails with [reason]. *)
Lemma handleWeave_refused config plan (s : Store E) reason w :
  initGitHub E (githubToken config) (targetRepo config) (username config)
    (env s) = (Thrown reason, w) ->
  handleWeave E config plan s =
    (Returned tt,
     mkStore E
       (mkAppState complete
          (refused_logs config (toLocaleTimeString E (env s))
             (toLocaleTimeString E w) reason)
          100 false)
       w,
     refused_trace config (toLocaleTimeString E (env s))
       (toLocaleTimeString E w) reason).
Proof.
  intros Hinit.
  unfold handleWeave, try_finally, try_catch, bind, await_initGitHub,
    addLog, setPhase, setLogs, setProgress, setIsWeaving, emit.
  cbn [app env]. rewrite Hinit. reflexivity.
Qed.

End Run.

(** *** Projections of the loop's trace *)

Lemma executed_attempts config n atts :
  executed (flat_map (attempt_actions config n) atts) = map a_event atts.
Proof.
  induction atts as [|a atts IH]; [reflexivity|].
  unfold executed in *. simpl. rewrite IH. reflexivity.
Qed.

Lemma settlements_attempts config n atts :
  settlements (flat_map (attempt_actions config n) atts) = map a_result atts.
Proof.
  induction atts as [|a atts IH]; [reflexivity|].
  unfold settlements in *. simpl. rewrite IH. reflexivity.
Qed.

Lemma connections_attempts config n atts :
  connections (flat_map (attempt_actions config n) atts) = [].
Proof.
  induction atts as [|a atts IH]; [reflexivity|].
  unfold connections in *. simpl. rewrite IH. reflexivity.
Qed.

Lemma progress_attempts config n atts :
  progress_updates (flat_map (attempt_actions config n) atts) =
    map (fun i => percent i n) (map a_index atts).
Proof.
  induction atts as [|a atts IH]; [reflexivity|].
  unfold progress_updates in *. simpl. rewrite IH. reflexivity.
Qed.

Lemma delays_attempts config n atts :
  delays (flat_map (attempt_actions config n) atts) =
    repeat 800%Z (List.length atts).
Proof.
  induction atts as [|a atts IH]; [reflexivity|].
  unfold delays in *. simpl. rewrite IH. reflexivity.
Qed.

Lemma executed_connected config plan t0 t1 t2 atts :
  executed (connected_trace config plan t0 t1 t2 atts) = map a_event atts.
Proof.
  unfold connected_trace, executed. rewrite !flat_map_app.
  fold (executed (flat_map (attempt_actions config (List.length plan)) atts)).
  rewrite executed_attempts. simpl. apply app_nil_r.
Qed.

Lemma settlements_connected config plan t0 t1 t2 atts :
  settlements (connected_trace config plan t0 t1 t2 atts) = map a_result atts.
Proof.
  unfold connected_trace, settlements. rewrite !flat_map_app.
  fold (settlements (flat_map (attempt_actions config (List.length plan)) atts)).
  rewrite settlements_attempts. simpl. apply app_nil_r.
Qed.

Lemma connections_connected config plan t0 t1 t2 atts :
  connections (connected_trace config plan t0 t1 t2 atts) = [Returned tt].
Proof.
  unfold connected_trace, connections. rewrite !flat_map_app.
  fold (connections (flat_map (attempt_actions config (List.length plan)) atts)).
  rewrite connections_attempts. reflexivity.
Qed.

Lemma progress_connected config plan t0 t1 t2 atts :
  progress_updates (connected_trace config plan t0 t1 t2 atts) =
    0 :: map (fun i => percent i (List.length plan)) (map a_index atts)
      ++ [100].
Proof.
  unfold connected_trace, progress_updates. rewrite !flat_map_app.
  fold (progress_updates
          (flat_map (attempt_actions config (List.length plan)) atts)).
  rewrite progress_attempts. reflexivity.
Qed.

Lemma delays_connected config plan t0 t1 t2 atts :
  delays (connected_trace config plan t0 t1 t2 atts) =
    repeat 800%Z (List.length atts).
Proof.
  unfold connected_trace, delays. rewrite !flat_map_app.
  fold (delays (flat_map (attempt_actions config (List.length plan)) atts)).
  rewrite delays_attempts. simpl. apply app_nil_r.
Qed.


(** The error entries of the loop are those of its failed attempts. *)
Lemma error_entries_attempts atts :
  List.length (filter is_error (flat_map attempt_logs atts)) =
    List.length
      (filter (fun r => match r with Thrown _ => true | Returned _ => false end)
         (map a_result atts)).
Proof.
  induction atts as [|a atts IH]; [reflexivity|].
  simpl. unfold settled_entry.
  destruct (a_result a); simpl; rewrite IH; reflexivity.
Qed.

(** *** Progress values *)

Lemma ratio_nonneg i n :
  0 <= inject_Z (Z.of_nat (i + 1)) / inject_Z (Z.of_nat n).
Proof.
  apply Qmult_le_0_compat.
  - change 0 with (inject_Z 0). rewrite <- Zle_Qle. lia.
  - apply Qinv_le_0_compat. change 0 with (inject_Z 0).
    rewrite <- Zle_Qle. lia.
Qed.

Lemma percent_nonneg i n : 0 <= percent i n.
Proof.
  unfold percent, Binary64.mul, Binary64.div. apply NumberFacts.round_nonneg.
  apply Qmult_le_0_compat; [|discriminate].
  apply NumberFacts.round_nonneg, ratio_nonneg.
Qed.

Lemma percent_mono i j n : (i <= j)%nat -> percent i n <= percent j n.
Proof.
  intros Hij. unfold percent, Binary64.mul, Binary64.div.
  apply NumberFacts.round_mono.
  - apply Qmult_le_0_compat; [|discriminate].
    apply NumberFacts.round_nonneg, ratio_nonneg.
  - apply Qmult_le_compat_r; [|discriminate].
    apply NumberFacts.round_mono; [apply ratio_nonneg|].
    apply Qmult_le_compat_r.
    + rewrite <- Zle_Qle. lia.
    + apply Qinv_le_0_compat. change 0 with (inject_Z 0).
      rewrite <- Zle_Qle. lia.
Qed.

Lemma percent_full n : (0 < n)%nat -> percent (n - 1) n = 100.
Proof.
  intros Hn. unfold percent, Binary64.mul, Binary64.div.
  replace (n - 1 + 1)%nat with n by lia.
  assert (H1 : inject_Z (Z.of_nat n) / inject_Z (Z.of_nat n) == 1).
  { unfold Qdiv. apply Qmult_inv_r. intros H.
    change 0 with (inject_Z 0) in H. rewrite inject_Z_injective in H. lia. }
  rewrite (NumberFacts.round_comp _ _ H1).
  vm_compute. reflexivity.
Qed.

Lemma percent_le_100 i n : (i < n)%nat -> percent i n <= 100.
Proof.
  intros Hi. rewrite <- (percent_full n) by lia.
  apply percent_mono. lia.
Qed.

Lemma percent_error i n :
  (i < n)%nat -> (Z.of_nat n < 2 ^ 32)%Z ->
  Qabs (percent i n - Spec.progress_after i n)
    <= Spec.progress_after i n * (1 # 2 ^ 51).
Proof.
  intros Hi Hn.
  unfold percent, Spec.progress_after, Binary64.mul, Binary64.div.
  set (x := inject_Z (Z.of_nat (i + 1)) / inject_Z (Z.of_nat n)).
  assert (Hx : (1 # 2 ^ 32) <= x).
  { unfold x. apply Qle_shift_div_l.
    - change 0 with (inject_Z 0). rewrite <- Zlt_Qlt. lia.
    - assert (Hn' : inject_Z (Z.of_nat n) <= inject_Z (2 ^ 32))
        by (rewrite <- Zle_Qle; lia).
      assert (Hi' : 1 <= inject_Z (Z.of_nat (i + 1)))
        by (change 1 with (inject_Z 1); rewrite <- Zle_Qle; lia).
      change (inject_Z (2 ^ 32)) with (4294967296 # 1) in Hn'.
      change (1 # 2 ^ 32) with (1 # 4294967296).
      generalize dependent (inject_Z (Z.of_nat n)).
      generalize dependent (inject_Z (Z.of_nat (i + 1))). intros. lra. }
  assert (Hsmall : 2 ^ (-1022) <= (1 # 2 ^ 32)).
  { change (1 # 2 ^ 32) with (2 ^ (-32)). apply NumberFacts.pow2_le. lia. }
  assert (Herr1 : Qabs (Binary64.round x - x) <= x * 2 ^ (-53)).
  { apply NumberFacts.round_error. lra. }
  assert (Hlow : (1 # 2 ^ 32) <= Binary64.round x).
  { assert (Hr : Binary64.round (1 # 2 ^ 32) = (1 # 2 ^ 32))
      by (vm_compute; reflexivity).
    rewrite <- Hr. apply NumberFacts.round_mono; [discriminate | exact Hx]. }
  assert (Herr2 : Qabs (Binary64.round (Binary64.round x * 100)
                        - Binary64.round x * 100)
                  <= Binary64.round x * 100 * 2 ^ (-53)).
  { apply NumberFacts.round_error. lra. }
  apply Qabs_Qle_condition in Herr1. apply Qabs_Qle_condition in Herr2.
  apply Qabs_Qle_condition.
  change (2 ^ (-53)) with (1 # 9007199254740992) in *.
  change (1 # 2 ^ 51) with (1 # 2251799813685248).
  clear Hsmall.
  change (1 # 2 ^ 32) with (1 # 4294967296) in *.
  generalize dependent (Binary64.round (Binary64.round x * 100)).
  generalize dependent (Binary64.round x). generalize dependent x.
  intros. split; lra.
Qed.

Lemma progress_sorted n k :
  forall a x,
    (a + k = n)%nat ->
    x <= 100 ->
    ((0 < k)%nat -> x <= percent a n) ->
    Sorted Qle (x :: map (fun i => percent i n) (seq a k) ++ [100]).
Proof.
  induction k as [|k IH]; intros a x Hlen Hx Hfirst; simpl.
  - repeat constructor. exact Hx.
  - constructor.
    + apply IH; [lia | apply percent_le_100; lia |].
      intros _. apply percent_mono. lia.
    + constructor. apply Hfirst. lia.
Qed.

(** *** What the log shows *)

Lemma shown_attempts atts1 :
  forall atts2,
    map a_event atts1 = map a_event atts2 ->
    map a_result atts1 = map a_result atts2 ->
    map shown (flat_map attempt_logs atts1) =
      map shown (flat_map attempt_logs atts2).
Proof.
  induction atts1 as [|a1 atts1 IH]; intros [|a2 atts2] Hev Hres;
    simpl in *; try discriminate; [reflexivity|].
  injection Hev as Hev1 Hev. injection Hres as Hres1 Hres.
  rewrite (IH atts2 Hev Hres).
  unfold shown, processing_entry, settled_entry.
  rewrite Hev1, Hres1. destruct (a_result a2); reflexivity.
Qed.

Lemma pace_attempts config n atts :
  forall rest,
    pace_from ready (flat_map (attempt_actions config n) atts ++ rest) =
      pace_from ready rest.
Proof.
  induction atts as [|a atts IH]; intros rest; [reflexivity|].
  simpl. apply IH.
Qed.

(** *** Claims on [handleWeave] *)

Ltac run_connected E config plan s Hinit :=
  let atts := fresh "atts" in
  let s' := fresh "s'" in
  let t2 := fresh "t2" in
  let Hrun := fresh "Hrun" in
  let Hev := fresh "Hev" in
  let Hidx := fresh "Hidx" in
  let Happ := fresh "Happ" in
  destruct (handleWeave_connected E config plan s _ Hinit)
    as [atts [s' [t2 [Hrun [Hev [Hidx Happ]]]]]];
  rewrite Hrun.



(** On three events whose second fails, the third is announced in the log
    and handed to the collaborator, after the error entry of the second. *)
Example third_event_after_failed_second :
  let '(r, s', t) :=
    handleWeave (Sample.remote ["evt_2"]) Sample.alice Sample.three_events
      (Sample.fresh ["evt_2"]) in
  settlements t =
    [ Returned "Done: feat: Initial project scaffold";
      Thrown "Reference already exists: evt_2";
      Returned "Done: Add login form" ]
  /\ executed t = [Sample.evt_1; Sample.evt_2; Sample.evt_3]
  /\ map shown (skipn 4 (logs (app s'))) =
       [ (info, "Processing [BRANCH] Create branch feature/auth-system...");
         (error, "Failed: Reference already exists: evt_2");
         (info, "Processing [PR] Add login form...");
         (success, "Done: Add login form");
         (success, "All events processed successfully.") ].
Proof.
  vm_compute. repeat split.
Qed.

(** C4. When the connection step fails, no event is handed to the
    remote-execution collaborator, the log holds exactly one entry of error
    severity, "Critical Error: reason", and the run ends in the complete
    phase with progress 100. *)
Theorem connection_failure_aborts_run :
  forall (E : Env) config plan (s : Store E) reason w,
    initGitHub E (githubToken config) (targetRepo config) (username config)
      (env s) = (Thrown reason, w) ->
    let '(r, s', t) := handleWeave E config plan s in
    r = Returned tt
    /\ executed t = []
    /\ settlements t = []
    /\ filter is_error (logs (app s')) =
         [mkLogEntry (toLocaleTimeString E w) error
            ("Critical Error: " ++ reason)]
    /\ progress (app s') = 100
    /\ phase (app s') = complete
    /\ isWeaving (app s') = false.
Proof.
  intros E config plan s reason w Hinit.
  rewrite (handleWeave_refused E config plan s reason w Hinit).
  repeat split.
Qed.

Lemma connection_failure_aborts_run_witness :
  let '(r, s', t) :=
    handleWeave (Sample.remote []) (with_token "" Sample.alice)
      Sample.three_events (Sample.fresh []) in
  r = Returned tt
  /\ executed t = []
  /\ settlements t = []
  /\ filter is_error (logs (app s')) =
       [mkLogEntry "t1" error "Critical Error: Bad credentials"]
  /\ progress (app s') = 100
  /\ phase (app s') = complete
  /\ isWeaving (app s') = false.
Proof.
  exact (connection_failure_aborts_run (Sample.remote [])
           (with_token "" Sample.alice) Sample.three_events (Sample.fresh [])
           "Bad credentials" 1%nat eq_refl).
Defined.

(** C5. In every run, on a plan of any length n: the first progress update
    is 0; when the connection step succeeds there follows exactly one
    update per event, ((i + 1) / n) * 100 for the event of index i as the
    program computes it, the quotient and then the product rounded to
    binary64, set after that event's remote call has settled, whichever
    way it settled; on a plan shorter than 2^32, as every array is, that
    update is within one part in 2^51 of the exact (i + 1) / n * 100, and
    the update of the last event is exactly 100; the last update is 100
    on both paths; the updates are non-decreasing; and the progress the
    run ends with is 100. *)
Theorem progress_reporting :
  forall (E : Env) config plan (s : Store E),
    let n := List.length plan in
    let update (i : nat) :=
      Binary64.mul
        (Binary64.div (inject_Z (Z.of_nat (i + 1))) (inject_Z (Z.of_nat n)))
        100 in
    let '(r, s', t) := handleWeave E config plan s in
    progress_updates t =
      0 :: match fst (initGitHub E (githubToken config) (targetRepo config)
                        (username config) (env s)) with
           | Returned _ => map update (seq 0 n)
           | Thrown _ => []
           end ++ [100]
    /\ (forall i,
          (i < n)%nat -> (Z.of_nat n < 2 ^ 32)%Z ->
          Qabs (update i - Spec.progress_after i n)
            <= Spec.progress_after i n * (1 # 2 ^ 51))
    /\ ((0 < n)%nat -> update (n - 1)%nat = 100)
    /\ Sorted Qle (progress_updates t)
    /\ progress (app s') = 100
    /\ match initGitHub E (githubToken config) (targetRepo config)
                (username config) (env s) with
       | (Returned _, w) =>
           exists atts t2,
             map a_event atts = plan
             /\ map a_index atts = seq 0 n
             /\ t = connected_trace config plan
                      (toLocaleTimeString E (env s))
                      (toLocaleTimeString E w) t2 atts
       | (Thrown reason, w) =>
           t = refused_trace config (toLocaleTimeString E (env s))
                 (toLocaleTimeString E w) reason
       end.
Proof.
  intros E config plan s n update.
  assert (Herror : forall i,
             (i < n)%nat -> (Z.of_nat n < 2 ^ 32)%Z ->
             Qabs (update i - Spec.progress_after i n)
               <= Spec.progress_after i n * (1 # 2 ^ 51))
    by (intros i; exact (percent_error i n)).
  assert (Hfull : (0 < n)%nat -> update (n - 1)%nat = 100)
    by exact (percent_full n).
  destruct (initGitHub E (githubToken config) (targetRepo config)
              (username config) (env s)) as [[[]|reason] w] eqn:Hinit.
  - run_connected E config plan s Hinit.
    rewrite progress_connected, Hidx, Happ. cbn [fst progress].
    split; [reflexivity|]. split; [exact Herror|]. split; [exact Hfull|].
    split.
    + apply (progress_sorted n n 0%nat 0); [lia | discriminate |].
      intros _. apply percent_nonneg.
    + split; [reflexivity|]. exists atts, t2. repeat split; assumption.
  - rewrite (handleWeave_refused E config plan s reason w Hinit).
    cbn [fst app progress]. split; [reflexivity|].
    split; [exact Herror|]. split; [exact Hfull|]. split.
    + simpl. repeat constructor. discriminate.
    + split; reflexivity.
Qed.

(** The progress updates of the run on three events whose second fails:
    33.33333333333333, 66.66666666666666 and 100 after the events. *)
Example progress_of_three_events :
  let '(r, s', t) :=
    handleWeave (Sample.remote ["evt_2"]) Sample.alice Sample.three_events
      (Sample.fresh ["evt_2"]) in
  progress_updates t =
    [ 0; 2345624805922133 # 70368744177664;
      2345624805922133 # 35184372088832; 100; 100 ].
Proof. vm_compute. reflexivity. Qed.

(** After 23 events of 40 the exact quotient is 57.5; the program holds
    57.49999999999999 and the view shows 57%. *)
Example progress_of_23_in_40 :
  percent 22 40 = 8092405580431359 # 140737488355328
  /\ Spec.progress_after 22 40 == 115 # 2
  /\ Views.percent_label (percent 22 40) = "57%".
Proof. vm_compute. repeat split. Qed.

(** C6 as stated fails: after an empty plan and a successful connection
    the log does not consist of the connection-success entry alone. *)
Lemma empty_plan_log_is_not_one_entry :
  let '(r, s', t) :=
    handleWeave (Sample.remote []) Sample.alice [] (Sample.fresh []) in
  connections t = [Returned tt]
  /\ ~ (phase (app s') = complete
        /\ progress (app s') = 100
        /\ exists at_time,
             logs (app s') =
               [mkLogEntry at_time success
                  "Connected securely. Starting sequence of 0 events."]).
Proof.
  vm_compute. split; [reflexivity|].
  intros [_ [_ [at_time H]]]. discriminate H.
Qed.

(** C6, amended. After an empty plan and a successful connection the run
    ends in the complete phase with progress 100, having made no remote
    execution call, and its log holds three entries and no per-event entry:
    the connecting entry, the connection-success entry for 0 events and the
    closing entry. *)
Theorem empty_plan_run :
  forall (E : Env) config (s : Store E) w,
    initGitHub E (githubToken config) (targetRepo config) (username config)
      (env s) = (Returned tt, w) ->
    let '(r, s', t) := handleWeave E config [] s in
    r = Returned tt
    /\ phase (app s') = complete
    /\ progress (app s') = 100
    /\ executed t = []
    /\ exists t2,
         logs (app s') =
           [ mkLogEntry (toLocaleTimeString E (env s)) info
               (connecting_message config);
             mkLogEntry (toLocaleTimeString E w) success
               "Connected securely. Starting sequence of 0 events.";
             mkLogEntry t2 success "All events processed successfully." ].
Proof.
  intros E config s w Hinit.
  run_connected E config (@nil GitEvent) s Hinit.
  apply map_eq_nil in Hev. subst atts.
  rewrite executed_connected, Happ. cbn [phase progress logs map].
  repeat split. exists t2. reflexivity.
Qed.

Lemma empty_plan_run_witness :
  let '(r, s', t) :=
    handleWeave (Sample.remote []) Sample.alice [] (Sample.fresh []) in
  r = Returned tt
  /\ phase (app s') = complete
  /\ progress (app s') = 100
  /\ executed t = []
  /\ exists t2,
       logs (app s') =
         [ mkLogEntry "t0" info
             "Initializing GitHub connection for alice/history-weaver-demo...";
           mkLogEntry "t1" success
             "Connected securely. Starting sequence of 0 events.";
           mkLogEntry t2 success "All events processed successfully." ].
Proof.
  exact (empty_plan_run (Sample.remote []) Sample.alice (Sample.fresh [])
           1%nat eq_refl).
Defined.

(** C8. In every run the remote calls are made one at a time, in plan
    order: a call starts only when the previous one has settled and the
    800 ms timer set after it has fired. When the connection step succeeds
    the trace is one block per event (announce, call, settle, report, set
    progress, set timer, timer fires), so a timer fires after every event,
    failed ones included. *)
Theorem events_in_order_without_overlap :
  forall (E : Env) config plan (s : Store E),
    let '(r, s', t) := handleWeave E config plan s in
    well_paced t
    /\ match initGitHub E (githubToken config) (targetRepo config)
                (username config) (env s) with
       | (Returned _, w) =>
           executed t = plan
           /\ delays t = repeat 800%Z (List.length plan)
           /\ exists atts t2,
                map a_event atts = plan
                /\ t = connected_trace config plan
                         (toLocaleTimeString E (env s))
                         (toLocaleTimeString E w) t2 atts
       | (Thrown reason, w) => executed t = [] /\ delays t = []
       end.
Proof.
  intros E config plan s.
  destruct (initGitHub E (githubToken config) (targetRepo config)
              (username config) (env s)) as [[[]|reason] w] eqn:Hinit.
  - run_connected E config plan s Hinit.
    rewrite executed_connected, delays_connected.
    split; [|split; [exact Hev|split]].
    + unfold well_paced, connected_trace. cbn [opening List.app pace_from
        pace_step connect_actions]. rewrite pace_attempts. reflexivity.
    + rewrite <- Hev, length_map. reflexivity.
    + exists atts, t2. split; [exact Hev | reflexivity].
  - rewrite (handleWeave_refused E config plan s reason w Hinit).
    repeat split.
Qed.

(** The calls and timers of the run on three events whose second fails. *)
Example pacing_of_three_events :
  let '(r, s', t) :=
    handleWeave (Sample.remote ["evt_2"]) Sample.alice Sample.three_events
      (Sample.fresh ["evt_2"]) in
  filter
    (fun a =>
       match a with
       | CallExecuteGitEvent _ _ | ExecuteGitEventSettled _
       | TimerSet _ | TimerFired _ => true
       | _ => false
       end) t =
    [ CallExecuteGitEvent Sample.evt_1 Sample.alice;
      ExecuteGitEventSettled (Returned "Done: feat: Initial project scaffold");
      TimerSet 800; TimerFired 800;
      CallExecuteGitEvent Sample.evt_2 Sample.alice;
      ExecuteGitEventSettled (Thrown "Reference already exists: evt_2");
      TimerSet 800; TimerFired 800;
      CallExecuteGitEvent Sample.evt_3 Sample.alice;
      ExecuteGitEventSettled (Returned "Done: Add login form");
      TimerSet 800; TimerFired 800 ].
Proof. vm_compute. reflexivity. Qed.

(** A trace in which a call starts before the timer fired is not
    well paced. *)
Example overlapping_calls_are_not_well_paced :
  ~ well_paced
      [ CallExecuteGitEvent Sample.evt_1 Sample.alice;
        ExecuteGitEventSettled (Returned "ok");
        TimerSet 800;
        CallExecuteGitEvent Sample.evt_2 Sample.alice;
        TimerFired 800;
        ExecuteGitEventSettled (Returned "ok");
        TimerSet 800; TimerFired 800 ].
Proof. unfold well_paced. simpl. discriminate. Qed.

(** C9 as stated fails. Two runs that differ only in the token write
    different logs when the remote repository accepts one token and
    refuses the other; and when its refusal quotes the token, the entry
    that the executor formats from it holds the token. *)
Lemma token_can_reach_the_log :
  let accepted := Sample.alice in
  let refused := with_token "ghp_9876543210" Sample.alice in
  let remote := Fixtures.guarded "ghp_0123456789" in
  let run1 :=
    handleWeave remote accepted Sample.three_events
      (Fixtures.at_start remote O) in
  let run2 :=
    handleWeave remote refused Sample.three_events
      (Fixtures.at_start remote O) in
  let run3 :=
    handleWeave Fixtures.echoing accepted Sample.three_events
      (Fixtures.at_start Fixtures.echoing O) in
  (map shown (logs (app_of run2)) =
     [ (info,
        "Initializing GitHub connection for alice/history-weaver-demo...");
       (error, "Critical Error: Bad credentials") ]
   /\ List.length (logs (app_of run1)) = 9%nat
   /\ map shown (logs (app_of run1)) <> map shown (logs (app_of run2)))
  /\ (map shown (logs (app_of run3)) =
        [ (info,
           "Initializing GitHub connection for alice/history-weaver-demo...");
          (error,
           "Critical Error: Bad credentials for token ghp_0123456789") ]
      /\ includes (githubToken accepted)
           "Critical Error: Bad credentials for token ghp_0123456789" = true).
Proof.
  intros accepted refused remote run1 run2 run3.
  assert (H2 : map shown (logs (app_of run2)) =
               [ (info,
                  "Initializing GitHub connection for alice/history-weaver-demo...");
                 (error, "Critical Error: Bad credentials") ])
    by (vm_compute; reflexivity).
  assert (H1 : List.length (logs (app_of run1)) = 9%nat)
    by (vm_compute; reflexivity).
  assert (H3 : map shown (logs (app_of run3)) =
               [ (info,
                  "Initializing GitHub connection for alice/history-weaver-demo...");
                 (error,
                  "Critical Error: Bad credentials for token ghp_0123456789") ])
    by (vm_compute; reflexivity).
  split; [split; [exact H2 | split; [exact H1|]] | split; [exact H3|]].
  - intros Heq. apply (f_equal (@List.length _)) in Heq.
    rewrite length_map, H1, H2 in Heq. discriminate Heq.
  - vm_compute. reflexivity.
Qed.

(** C9, amended. Two runs on the same plan whose configurations differ
    only in the access token, and in which the collaborators settle alike,
    write the same log entries (severity and message); and the request
    rendered for the generator, its prompt included, is the same for both
    configurations. *)
Theorem token_is_not_logged_nor_sent_to_generator :
  forall (E : Env) config token' plan (s1 s2 : Store E),
    let run1 := handleWeave E config plan s1 in
    let run2 := handleWeave E (with_token token' config) plan s2 in
    connections (trace_of run1) = connections (trace_of run2) ->
    settlements (trace_of run1) = settlements (trace_of run2) ->
    map shown (logs (app_of run1)) = map shown (logs (app_of run2))
    /\ Gemini.prompt config = Gemini.prompt (with_token token' config)
    /\ Gemini.request config = Gemini.request (with_token token' config).
Proof.
  intros E config token' plan s1 s2.
  assert (Hprompt : Gemini.prompt config
                    = Gemini.prompt (with_token token' config))
    by reflexivity.
  assert (Hrequest : Gemini.request config
                     = Gemini.request (with_token token' config))
    by reflexivity.
  cbv zeta. unfold trace_of, app_of.
  destruct (initGitHub E (githubToken config) (targetRepo config)
              (username config) (env s1)) as [[[]|reason1] w1] eqn:Hinit1;
  destruct (initGitHub E (githubToken (with_token token' config))
              (targetRepo (with_token token' config))
              (username (with_token token' config)) (env s2))
    as [[[]|reason2] w2] eqn:Hinit2.
  - destruct (handleWeave_connected E config plan s1 _ Hinit1)
      as [atts1 [s1' [c1 [Hrun1 [Hev1 [_ Happ1]]]]]].
    destruct (handleWeave_connected E (with_token token' config) plan s2 _
                Hinit2) as [atts2 [s2' [c2 [Hrun2 [Hev2 [_ Happ2]]]]]].
    rewrite Hrun1, Hrun2. cbn [fst snd].
    rewrite !settlements_connected, Happ1, Happ2.
    intros _ Hres. split; [|split; assumption].
    cbn [logs]. unfold connected_logs. rewrite !map_app.
    rewrite (shown_attempts atts1 atts2); [reflexivity | congruence | exact Hres].
  - destruct (handleWeave_connected E config plan s1 _ Hinit1)
      as [atts1 [s1' [c1 [Hrun1 _]]]].
    rewrite Hrun1, (handleWeave_refused E _ plan s2 reason2 w2 Hinit2).
    cbn [fst snd]. rewrite connections_connected. discriminate.
  - destruct (handleWeave_connected E (with_token token' config) plan s2 _
                Hinit2) as [atts2 [s2' [c2 [Hrun2 _]]]].
    rewrite Hrun2, (handleWeave_refused E _ plan s1 reason1 w1 Hinit1).
    cbn [fst snd]. rewrite connections_connected. discriminate.
  - rewrite (handleWeave_refused E _ plan s1 reason1 w1 Hinit1),
      (handleWeave_refused E _ plan s2 reason2 w2 Hinit2).
    cbn [fst snd]. intros Hconn _. split; [|split; assumption].
    injection Hconn as Hreason. subst reason2. reflexivity.
Qed.

Lemma token_is_not_logged_nor_sent_to_generator_witness :
  let run1 :=
    handleWeave (Sample.remote ["evt_2"]) Sample.alice Sample.three_events
      (Sample.fresh ["evt_2"]) in
  let run2 :=
    handleWeave (Sample.remote ["evt_2"])
      (with_token "ghp_9876543210" Sample.alice) Sample.three_events
      (Sample.fresh ["evt_2"]) in
  (connections (trace_of run1) = connections (trace_of run2)
   /\ settlements (trace_of run1) = settlements (trace_of run2))
  /\ map shown (logs (app_of run1)) = map shown (logs (app_of run2))
  /\ Gemini.prompt Sample.alice
     = Gemini.prompt (with_token "ghp_9876543210" Sample.alice)
  /\ Gemini.request Sample.alice
     = Gemini.request (with_token "ghp_9876543210" Sample.alice).
Proof.
  intros run1 run2.
  assert (Hconn : connections (trace_of run1) = connections (trace_of run2))
    by (vm_compute; reflexivity).
  assert (Hres : settlements (trace_of run1) = settlements (trace_of run2))
    by (vm_compute; reflexivity).
  split; [split; assumption|].
  exact (token_is_not_logged_nor_sent_to_generator (Sample.remote ["evt_2"])
           Sample.alice "ghp_9876543210" Sample.three_events
           (Sample.fresh ["evt_2"]) (Sample.fresh ["evt_2"]) Hconn Hres).
Defined.

(** The two logs of those runs, entry by entry. *)
Example logs_of_two_tokens :
  map shown
    (logs (app_of (handleWeave (Sample.remote ["evt_2"])
                     (with_token "ghp_9876543210" Sample.alice)
                     Sample.three_events (Sample.fresh ["evt_2"])))) =
    [ (info, "Initializing GitHub connection for alice/history-weaver-demo...");
      (success, "Connected securely. Starting sequence of 3 events.");
      (info, "Processing [COMMIT] feat: Initial project scaffold...");
      (success, "Done: feat: Initial project scaffold");
      (info, "Processing [BRANCH] Create branch feature/auth-system...");
      (error, "Failed: Reference already exists: evt_2");
      (info, "Processing [PR] Add login form...");
      (success, "Done: Add login form");
      (success, "All events processed successfully.") ].
Proof. vm_compute. reflexivity. Qed.

(** C10. When the connection step succeeds, the last log entry of the run
    is "All events processed successfully." at success severity, whatever
    the remote calls did: the log holds one error entry for each call that
    failed, and the closing entry all the same. *)
Theorem closing_entry_ignores_event_failures :
  forall (E : Env) config plan (s : Store E) w,
    initGitHub E (githubToken config) (targetRepo config) (username config)
      (env s) = (Returned tt, w) ->
    let '(r, s', t) := handleWeave E config plan s in
    (exists earlier t2,
       logs (app s') =
         earlier
           ++ [mkLogEntry t2 success "All events processed successfully."])
    /\ List.length (filter is_error (logs (app s'))) =
         List.length
           (filter
              (fun r => match r with Thrown _ => true | Returned _ => false end)
              (settlements t)).
Proof.
  intros E config plan s w Hinit.
  run_connected E config plan s Hinit.
  rewrite settlements_connected, Happ. cbn [logs]. split.
  - eexists. exists t2. unfold connected_logs. rewrite app_assoc. reflexivity.
  - unfold connected_logs. rewrite !filter_app, !length_app.
    rewrite error_entries_attempts. simpl. lia.
Qed.

(** C10, on a run in which every remote call fails. *)
Lemma closing_entry_ignores_event_failures_witness :
  let '(r, s', t) :=
    handleWeave (Sample.remote ["evt_1"; "evt_2"; "evt_3"]) Sample.alice
      Sample.three_events (Sample.fresh ["evt_1"; "evt_2"; "evt_3"]) in
  (exists earlier t2,
     logs (app s') =
       earlier
         ++ [mkLogEntry t2 success "All events processed successfully."])
  /\ List.length (filter is_error (logs (app s'))) =
       List.length
         (filter
            (fun r => match r with Thrown _ => true | Returned _ => false end)
            (settlements t)).
Proof.
  exact (closing_entry_ignores_event_failures
           (Sample.remote ["evt_1"; "evt_2"; "evt_3"]) Sample.alice
           Sample.three_events (Sample.fresh ["evt_1"; "evt_2"; "evt_3"])
           1%nat eq_refl).
Defined.

(** Every remote call of that run failed, and its log still closes on the
    success entry. *)
Example all_events_fail_and_log_closes_on_success :
  let '(r, s', t) :=
    handleWeave (Sample.remote ["evt_1"; "evt_2"; "evt_3"]) Sample.alice
      Sample.three_events (Sample.fresh ["evt_1"; "evt_2"; "evt_3"]) in
  map shown (filter is_error (logs (app s'))) =
    [ (error, "Failed: Reference already exists: evt_1");
      (error, "Failed: Reference already exists: evt_2");
      (error, "Failed: Reference already exists: evt_3") ]
  /\ option_map shown (last (map Some (logs (app s'))) None) =
       Some (success, "All events processed successfully.").
Proof. vm_compute. split; reflexivity. Qed.

End WeaveFacts.

(** * Properties of the text clean-up *)

Module CleanFacts.

Local Open Scope string_scope.

Lemma prefix_nil_r p : prefix p "" = true -> p = "".
Proof. destruct p; [reflexivity | discriminate]. Qed.

Lemma prefix_empty s : prefix "" s = true.
Proof. destruct s; reflexivity. Qed.

Lemma prefix_cons c p d s :
  prefix (String c p) (String d s) = true <-> c = d /\ prefix p s = true.
Proof.
  simpl. destruct (ascii_dec c d) as [->|Hne]; split.
  - intros H. split; [reflexivity | exact H].
  - intros [_ H]. exact H.
  - discriminate.
  - intros [H _]. contradiction.
Qed.

Lemma prefix_other c p d s : c <> d -> prefix (String c p) (String d s) = false.
Proof. intros Hne. simpl. destruct (ascii_dec c d); [contradiction | reflexivity]. Qed.

Lemma prefix_same c p s : prefix (String c p) (String c s) = prefix p s.
Proof. simpl. destruct (ascii_dec c c); [reflexivity | contradiction]. Qed.

Lemma remove_all_from_skip pat k c r :
  remove_all_from pat (S k) (String c r) = remove_all_from pat k r.
Proof. reflexivity. Qed.

(** Removing the fences leaves none, by induction on the length of the
    text: a run of backticks keeps fewer than three. *)
Lemma remove_fences_spec n :
  forall s, (String.length s <= n)%nat ->
    let o := remove_all "```" s in
    includes "```" o = false
    /\ (prefix "``" s = false -> prefix "``" o = false)
    /\ (prefix "`" s = false -> prefix "`" o = false).
Proof.
  induction n as [|n IH]; intros s Hlen.
  - destruct s; [|simpl in Hlen; lia]. cbv. repeat split.
  - destruct s as [|c r]; [cbv; repeat split|].
    simpl in Hlen. unfold remove_all in *. cbn [remove_all_from].
    destruct (prefix "```" (String c r)) eqn:Hfence.
    + (* a fence starts here *)
      destruct (ascii_dec "`" c) as [<-|Hc]; [|rewrite prefix_other in Hfence by exact Hc; discriminate].
      rewrite prefix_same in Hfence.
      destruct r as [|c2 r]; [discriminate|].
      destruct (ascii_dec "`" c2) as [<-|Hc2]; [|rewrite prefix_other in Hfence by exact Hc2; discriminate].
      rewrite prefix_same in Hfence.
      destruct r as [|c3 r]; [discriminate|].
      destruct (ascii_dec "`" c3) as [<-|Hc3]; [|rewrite prefix_other in Hfence by exact Hc3; discriminate].
      cbn [String.length Nat.sub remove_all_from]. simpl in Hlen.
      destruct (IH r) as [Hno _]; [lia|]. cbv zeta in Hno.
      split; [exact Hno|]. split; intros H; cbv in H; discriminate.
    + destruct (IH r) as [Hno [H2 H1]]; [lia|]. cbv zeta in *.
      destruct (ascii_dec "`" c) as [<-|Hc].
      * rewrite prefix_same in Hfence.
        specialize (H2 Hfence).
        split; [|split].
        -- cbn [includes]. rewrite prefix_same, H2, Hno. reflexivity.
        -- rewrite !prefix_same. exact H1.
        -- rewrite prefix_same, prefix_empty. discriminate.
      * split; [|split].
        -- cbn [includes]. rewrite prefix_other by exact Hc. exact Hno.
        -- intros _. apply prefix_other. exact Hc.
        -- intros _. apply prefix_other. exact Hc.
Qed.

Lemma includes_tail pat c r : includes pat (String c r) = false -> includes pat r = false.
Proof. cbn [includes]. intros H. apply orb_false_iff in H. apply H. Qed.

Lemma includes_trimStart pat s : includes pat s = false -> includes pat (trimStart s) = false.
Proof.
  induction s as [|c r IH]; [trivial|].
  intros H. cbn [trimStart]. destruct (is_space c); [|exact H].
  apply IH. exact (includes_tail _ _ _ H).
Qed.

Lemma prefix_trimEnd s : forall p, prefix p (trimEnd s) = true -> prefix p s = true.
Proof.
  induction s as [|c r IH]; intros p Hp; [exact Hp|].
  cbn [trimEnd] in Hp.
  destruct p as [|d p]; [reflexivity|].
  destruct (trimEnd r) as [|c' r'] eqn:Hr.
  - destruct (is_space c); [discriminate|].
    apply prefix_cons in Hp. destruct Hp as [-> Hp].
    apply prefix_nil_r in Hp. subst p. rewrite prefix_same. destruct r; reflexivity.
  - apply prefix_cons in Hp. destruct Hp as [-> Hp].
    rewrite prefix_same. apply IH. exact Hp.
Qed.

Lemma includes_trimEnd pat s :
  pat <> "" ->
  includes pat s = false -> includes pat (trimEnd s) = false.
Proof.
  intros Hpat. induction s as [|c r IH]; [trivial|].
  intros H. cbn [includes] in H. apply orb_false_iff in H. destruct H as [Hp Hr].
  specialize (IH Hr).
  assert (Hhead : prefix pat (trimEnd (String c r)) = false).
  { destruct (prefix pat (trimEnd (String c r))) eqn:Hpre; [|reflexivity].
    apply prefix_trimEnd in Hpre. congruence. }
  cbn [trimEnd] in *.
  destruct (trimEnd r) as [|c' r'] eqn:Htr.
  - destruct (is_space c).
    + exact IH.
    + cbn [includes]. rewrite Hhead. destruct pat; [contradiction | reflexivity].
  - cbn [includes] in *. rewrite Hhead. exact IH.
Qed.

(** The cleaned text holds no code fence. *)
Lemma clean_fence_free text : includes "```" (Gemini.clean text) = false.
Proof.
  unfold Gemini.clean, trim.
  apply includes_trimEnd; [discriminate|]. apply includes_trimStart.
  apply (remove_fences_spec (String.length (remove_all "```json" text))). lia.
Qed.

Lemma trimEnd_idem s : trimEnd (trimEnd s) = trimEnd s.
Proof.
  induction s as [|c r IH]; [reflexivity|].
  cbn [trimEnd]. destruct (trimEnd r) as [|c' r'] eqn:Htr.
  - destruct (is_space c) eqn:Hs; [reflexivity|]. cbn [trimEnd]. rewrite Hs. reflexivity.
  - change (trimEnd (String c (String c' r'))) with
      (match trimEnd (String c' r') with
       | EmptyString =>
           if is_space c then EmptyString else String c EmptyString
       | String _ _ as r'' => String c r''
       end).
    rewrite IH. reflexivity.
Qed.

Lemma trimStart_head s :
  match trimStart s with
  | EmptyString => True
  | String c _ => is_space c = false
  end.
Proof.
  induction s as [|c r IH]; [exact I|].
  cbn [trimStart]. destruct (is_space c) eqn:Hs; [exact IH | exact Hs].
Qed.

Lemma trimStart_fixed c r : is_space c = false -> trimStart (String c r) = String c r.
Proof. intros H. cbn [trimStart]. rewrite H. reflexivity. Qed.

Lemma trimEnd_head c r :
  is_space c = false -> exists r', trimEnd (String c r) = String c r'.
Proof.
  intros H. cbn [trimEnd]. destruct (trimEnd r).
  - rewrite H. eexists. reflexivity.
  - eexists. reflexivity.
Qed.

Lemma trim_idem s : trim (trim s) = trim s.
Proof.
  unfold trim. pose proof (trimStart_head s) as Hhead.
  destruct (trimStart s) as [|c r]; [reflexivity|].
  destruct (trimEnd_head c r Hhead) as [r' Hr']. 
  rewrite Hr'. rewrite trimStart_fixed by exact Hhead. rewrite <- Hr'. apply trimEnd_idem.
Qed.

Lemma remove_all_absent pat s :
  includes pat s = false -> remove_all pat s = s.
Proof.
  unfold remove_all. induction s as [|c r IH]; [reflexivity|].
  intros H. cbn [includes] in H. apply orb_false_iff in H. destruct H as [Hp Hr].
  cbn [remove_all_from]. rewrite Hp, (IH Hr). reflexivity.
Qed.

Lemma prefix_app p q s : prefix (p ++ q) s = true -> prefix p s = true.
Proof.
  revert s. induction p as [|c p IH]; intros s H; [destruct s; reflexivity|].
  destruct s as [|d s]; [discriminate|].
  cbn [append] in H. apply prefix_cons in H. destruct H as [-> H].
  rewrite prefix_same. apply IH. exact H.
Qed.

Lemma includes_app p q s : includes p s = false -> includes (p ++ q) s = false.
Proof.
  induction s as [|c r IH]; intros H.
  - cbn [includes] in *. destruct (prefix (p ++ q) "") eqn:E; [|reflexivity].
    apply prefix_app in E. congruence.
  - cbn [includes] in *. apply orb_false_iff in H. destruct H as [Hp Hr].
    rewrite (IH Hr), orb_false_r.
    destruct (prefix (p ++ q) (String c r)) eqn:E; [|reflexivity].
    apply prefix_app in E. congruence.
Qed.

(** X1. Whatever the generator answered, the text that
    [generateSimulationPlan] hands to [JSON.parse] holds no markdown code
    fence, with or without its json tag. *)
Theorem cleaned_text_has_no_fence :
  forall text,
    includes "```" (Gemini.clean text) = false
    /\ includes "```json" (Gemini.clean text) = false.
Proof.
  intros text. pose proof (clean_fence_free text) as Hno.
  split; [exact Hno|]. exact (includes_app "```" "json" _ Hno).
Qed.

(** X2. The clean-up is idempotent, and its result has no white space
    left to trim: cleaning a cleaned text changes nothing. *)
Theorem clean_is_idempotent :
  forall text,
    Gemini.clean (Gemini.clean text) = Gemini.clean text
    /\ trim (Gemini.clean text) = Gemini.clean text.
Proof.
  intros text. pose proof (clean_fence_free text) as Hno. split.
  - unfold Gemini.clean at 1.
    rewrite (remove_all_absent "```json");
      [|exact (includes_app "```" "json" _ Hno)].
    rewrite (remove_all_absent "```") by exact Hno.
    unfold Gemini.clean. apply trim_idem.
  - unfold Gemini.clean. apply trim_idem.
Qed.

Example clean_of_nested_fences :
  Gemini.clean ("``" ++ "```json" ++ "`[1]" ++ "````") = "[1]`".
Proof. reflexivity. Qed.

End CleanFacts.

(** * Properties of the calendar arithmetic of the fallback *)

Module CalendarFacts.

Import JsDate.

Local Open Scope Z_scope.

Lemma is_leap_spec y :
  is_leap y = true <-> ((y mod 4 = 0 /\ y mod 100 <> 0) \/ y mod 400 = 0).
Proof.
  unfold is_leap.
  rewrite orb_true_iff, andb_true_iff, negb_true_iff, !Z.eqb_eq, Z.eqb_neq.
  reflexivity.
Qed.

Lemma civil_of_days y m d :
  1 <= m <= 12 -> 1 <= d <= days_in_month y m ->
  civil_from_days (days_from_civil y m d) = (y, m, d).
Proof.
  intros Hm Hd.
  set (y' := if m <=? 2 then y - 1 else y).
  set (era := y' / 400).
  set (yoe := y' - era * 400).
  set (mp := (m + 9) mod 12).
  set (doy := (153 * mp + 2) / 5 + d - 1).
  set (doe := yoe * 365 + yoe / 4 - yoe / 100 + doy).
  assert (Hdays : days_from_civil y m d = era * 146097 + doe - 719468) by reflexivity.
  assert (Hyoe : 0 <= yoe <= 399) by (subst yoe era; Z.div_mod_to_equations; lia).
  assert (Hmp : 0 <= mp <= 11 /\ (m <= 2 -> mp = m + 9) /\ (3 <= m -> mp = m - 3))
    by (subst mp; Z.div_mod_to_equations; lia).
  (* length of the shifted year *)
  assert (Hleap : is_leap y = true <-> is_leap y = true) by tauto.
  assert (Hdoy : 0 <= doy /\ doy <= 365 /\ (doy = 365 -> (yoe mod 4 = 3 /\ (yoe mod 100 <> 99 \/ yoe = 399)))).
  { unfold days_in_month in Hd.
    destruct (Z.eqb_spec m 2) as [E2|N2].
    - assert (mp = 11) by lia. 
      destruct (is_leap y) eqn:Hl.
      + apply is_leap_spec in Hl. 
        assert (y' = y - 1) by (subst y'; destruct (Z.leb_spec m 2); lia).
        subst doy yoe era. Z.div_mod_to_equations. lia.
      + subst doy. Z.div_mod_to_equations. lia.
    - destruct ((m =? 4) || (m =? 6) || (m =? 9) || (m =? 11))%bool eqn:H30.
      + rewrite !orb_true_iff, !Z.eqb_eq in H30. subst doy. Z.div_mod_to_equations. lia.
      + rewrite !orb_false_iff, !Z.eqb_neq in H30. subst doy. Z.div_mod_to_equations. lia. }
  assert (Hdoe : 0 <= doe <= 146096) by (subst doe; Z.div_mod_to_equations; lia).
  unfold civil_from_days. rewrite Hdays. cbv zeta.
  replace (era * 146097 + doe - 719468 + 719468) with (era * 146097 + doe) by lia.
  replace ((era * 146097 + doe) / 146097) with era by (Z.div_mod_to_equations; lia).
  replace (era * 146097 + doe - era * 146097) with doe by lia.
  assert (Hyoe' : (doe - doe / 1460 + doe / 36524 - doe / 146096) / 365 = yoe).
  { subst doe. Z.div_mod_to_equations. lia. }
  rewrite Hyoe'.
  replace (doe - (365 * yoe + yoe / 4 - yoe / 100)) with doy by (subst doe; lia).
  assert (Hmp' : (5 * doy + 2) / 153 = mp).
  { subst doy. unfold days_in_month in Hd.
    destruct (Z.eqb_spec m 2) as [E2|N2].
    - destruct (is_leap y); Z.div_mod_to_equations; lia.
    - destruct ((m =? 4) || (m =? 6) || (m =? 9) || (m =? 11))%bool eqn:H30.
      + rewrite !orb_true_iff, !Z.eqb_eq in H30. Z.div_mod_to_equations. lia.
      + rewrite !orb_false_iff, !Z.eqb_neq in H30. Z.div_mod_to_equations. lia. }
  rewrite Hmp'.
  replace (doy - (153 * mp + 2) / 5 + 1) with d by (subst doy; lia).
  subst y'. destruct (Z.leb_spec m 2).
  - replace (mp <? 10) with false by (symmetry; apply Z.ltb_ge; lia).
    replace (mp - 9) with m by lia.
    replace (m <=? 2) with true by (symmetry; apply Z.leb_le; lia).
    f_equal. f_equal. subst yoe. lia.
  - replace (mp <? 10) with true by (symmetry; apply Z.ltb_lt; lia).
    replace (mp + 3) with m by lia.
    replace (m <=? 2) with false by (symmetry; apply Z.leb_gt; lia).
    f_equal. f_equal. subst yoe. lia.
Qed.

Lemma days_in_month_range y m : 28 <= days_in_month y m <= 31.
Proof.
  unfold days_in_month.
  destruct (m =? 2); [destruct (is_leap y); lia|].
  destruct ((m =? 4) || (m =? 6) || (m =? 9) || (m =? 11))%bool; lia.
Qed.

Lemma next_day_valid y m d :
  1 <= m <= 12 -> 1 <= d <= days_in_month y m ->
  let '(y', m', d') := Calendar.next_day (y, m, d) in
  1 <= m' <= 12 /\ 1 <= d' <= days_in_month y' m'.
Proof.
  intros Hm Hd. unfold Calendar.next_day.
  destruct (Z.ltb_spec d (days_in_month y m)); [lia|].
  destruct (Z.ltb_spec m 12).
  - pose proof (days_in_month_range y (m + 1)). lia.
  - pose proof (days_in_month_range (y + 1) 1). lia.
Qed.

(** From the first of March of the year before to the first of March. *)
Lemma march_first y :
  let a := (y - 1) / 400 in
  let b := y / 400 in
  let p := y - 1 - a * 400 in
  let q := y - b * 400 in
  b * 146097 + (q * 365 + q / 4 - q / 100) =
  a * 146097 + (p * 365 + p / 4 - p / 100)
    + (if is_leap y then 366 else 365).
Proof.
  cbv zeta.
  destruct (Z.eq_dec (y mod 400) 0) as [H400|H400].
  - assert (Hl : is_leap y = true) by (apply is_leap_spec; right; exact H400).
    rewrite Hl.
    assert (Ha : (y - 1) / 400 = y / 400 - 1) by (Z.div_mod_to_equations; lia).
    rewrite Ha.
    replace (y - 1 - (y / 400 - 1) * 400) with 399 by (Z.div_mod_to_equations; lia).
    replace (y - y / 400 * 400) with 0 by (Z.div_mod_to_equations; lia).
    change (399 / 4) with 99. change (399 / 100) with 3.
    change (0 / 4) with 0. change (0 / 100) with 0. lia.
  - assert (Ha : (y - 1) / 400 = y / 400) by (Z.div_mod_to_equations; lia).
    rewrite Ha.
    set (b := y / 400). set (q := y - b * 400).
    replace (y - 1 - b * 400) with (q - 1) by (subst q; lia).
    assert (Hq : 1 <= q <= 399) by (subst q b; Z.div_mod_to_equations; lia).
    assert (Hq4 : q mod 4 = y mod 4).
    { subst q. replace (y - b * 400) with (y + (- b * 100) * 4) by lia.
      apply Z.mod_add. lia. }
    assert (Hq100 : q mod 100 = y mod 100).
    { subst q. replace (y - b * 400) with (y + (- b * 4) * 100) by lia.
      apply Z.mod_add. lia. }
    destruct (is_leap y) eqn:Hl.
    + apply is_leap_spec in Hl. destruct Hl as [[H4 H100]|H]; [|contradiction].
      rewrite <- Hq4 in H4. rewrite <- Hq100 in H100.
      clearbody q. clear -Hq H4 H100. Z.div_mod_to_equations. lia.
    + assert (Hn : y mod 4 <> 0 \/ y mod 100 = 0).
      { destruct (Z.eq_dec (y mod 4) 0) as [E4|N4]; [|left; exact N4].
        destruct (Z.eq_dec (y mod 100) 0) as [E100|N100]; [right; exact E100|].
        assert (is_leap y = true) by (apply is_leap_spec; left; split; assumption).
        congruence. }
      rewrite <- Hq4, <- Hq100 in Hn.
      assert (Hq400 : q <> 0) by lia.
      clearbody q. clear -Hq Hn. Z.div_mod_to_equations. lia.
Qed.

Lemma next_day_days y m d :
  1 <= m <= 12 -> 1 <= d <= days_in_month y m ->
  let '(y', m', d') := Calendar.next_day (y, m, d) in
  days_from_civil y' m' d' = days_from_civil y m d + 1.
Proof.
  intros Hm Hd. unfold Calendar.next_day.
  destruct (Z.ltb_spec d (days_in_month y m)).
  - unfold days_from_civil. lia.
  - assert (Hlast : d = days_in_month y m) by lia.
    destruct (Z.ltb_spec m 12).
    + unfold days_from_civil. unfold days_in_month in Hlast.
      destruct (Z.eqb_spec m 2) as [E2|N2].
      * subst m. change (2 + 1) with 3. cbn [Z.leb Z.compare Pos.compare Pos.compare_cont].
        change ((2 + 9) mod 12) with 11. change ((3 + 9) mod 12) with 0.
        change ((153 * 11 + 2) / 5) with 337. change ((153 * 0 + 2) / 5) with 0.
        pose proof (march_first y) as Hmarch. cbv zeta in Hmarch.
        destruct (is_leap y) eqn:Hl; lia.
      * destruct ((m =? 4) || (m =? 6) || (m =? 9) || (m =? 11))%bool eqn:H30.
        -- rewrite !orb_true_iff, !Z.eqb_eq in H30.
           destruct (Z.leb_spec m 2); destruct (Z.leb_spec (m + 1) 2); Z.div_mod_to_equations; lia.
        -- rewrite !orb_false_iff, !Z.eqb_neq in H30.
           destruct (Z.leb_spec m 2); destruct (Z.leb_spec (m + 1) 2); Z.div_mod_to_equations; lia.
    + assert (m = 12) by lia. subst m.
      assert (d = 31) by (rewrite Hlast; reflexivity). subst d.
      unfold days_from_civil. simpl. Z.div_mod_to_equations. lia.
Qed.

Local Open Scope string_scope.

Lemma date_fields_parse s y m d :
  Calendar.date_fields s = Some (y, m, d) ->
  parse_date s = Some (days_from_civil y m d * msPerDay)
  /\ (1 <= m <= 12)%Z /\ (1 <= d <= days_in_month y m)%Z.
Proof.
  unfold Calendar.date_fields, parse_date.
  destruct ((String.length s =? 10)%nat
            && String.eqb (substring 4 1 s) "-"
            && String.eqb (substring 7 1 s) "-")%bool; [|discriminate].
  destruct (digits (substring 0 4 s)) as [y0|]; [|discriminate].
  destruct (digits (substring 5 2 s)) as [m0|]; [|discriminate].
  destruct (digits (substring 8 2 s)) as [d0|]; [|discriminate].
  destruct ((1 <=? m0)%Z && (m0 <=? 12)%Z && (1 <=? d0)%Z
            && (d0 <=? days_in_month y0 m0)%Z)%bool eqn:Hrange; [|discriminate].
  intros H. injection H as -> -> ->.
  repeat (apply andb_prop in Hrange; destruct Hrange as [Hrange ?]).
  split; [reflexivity|]. lia.
Qed.

Lemma append_assoc (a b c : string) : ((a ++ b) ++ c = a ++ (b ++ c))%string.
Proof. induction a as [|x a IH]; [reflexivity|]. simpl. rewrite IH. reflexivity. Qed.

Lemma toISOString_midnight y m d :
  (1 <= m <= 12)%Z -> (1 <= d <= days_in_month y m)%Z ->
  toISOString (Some (days_from_civil y m d * msPerDay)) =
    Returned (Calendar.iso_date (y, m, d) ++ "T00:00:00.000Z").
Proof.
  intros Hm Hd. unfold toISOString.
  rewrite Z.div_mul by discriminate. rewrite Z.mod_mul by discriminate.
  rewrite (civil_of_days y m d Hm Hd).
  unfold Calendar.iso_date. cbv zeta.
  change (pad 2 (0 / 3600000)) with "00".
  change (pad 2 (0 / 60000 mod 60)) with "00".
  change (pad 2 (0 / 1000 mod 60)) with "00".
  change (pad 3 (0 mod 1000)) with "000".
  rewrite !append_assoc. reflexivity.
Qed.

(** X3. When the start date is a calendar date YYYY-MM-DD, the second
    fallback event is dated at UTC midnight of the following calendar day,
    across the ends of months and years and on leap days. *)
Theorem fallback_second_date_is_next_day :
  forall c y m d,
    Calendar.date_fields (startDate c) = Some (y, m, d) ->
    Gemini.fallback c =
      Returned
        (Gemini.two_events (startDate c)
           (Calendar.iso_date (Calendar.next_day (y, m, d))
              ++ "T00:00:00.000Z")
           (username c)).
Proof.
  intros c y m d Hfields.
  destruct (date_fields_parse _ _ _ _ Hfields) as [Hparse [Hm Hd]].
  destruct (GeminiFacts.fallback_defined c _ Hparse) as [iso [Hiso Hfb]].
  rewrite Hfb. f_equal. f_equal.
  pose proof (next_day_days y m d Hm Hd) as Hnext.
  pose proof (next_day_valid y m d Hm Hd) as Hvalid.
  destruct (Calendar.next_day (y, m, d)) as [[y' m'] d'].
  replace (days_from_civil y m d * msPerDay + 86400000)
    with (days_from_civil y' m' d' * msPerDay) in Hiso
    by (rewrite Hnext; unfold msPerDay; lia).
  rewrite (toISOString_midnight y' m' d') in Hiso by apply Hvalid.
  congruence.
Qed.

(** X3, on the eve of a leap day. *)
Lemma fallback_second_date_is_next_day_witness :
  Gemini.fallback Fixtures.leap_eve =
    Returned
      (Gemini.two_events "2024-02-28"
         (Calendar.iso_date (Calendar.next_day (2024, 2, 28))
            ++ "T00:00:00.000Z")
         "alice").
Proof.
  exact (fallback_second_date_is_next_day Fixtures.leap_eve 2024 2 28 eq_refl).
Defined.

Example next_days :
  map (fun date => Calendar.iso_date (Calendar.next_day date))
    [ (2024, 2, 28); (2023, 2, 28); (2024, 2, 29); (2023, 12, 31);
      (1900, 2, 28); (2000, 2, 28); (2024, 4, 30) ] =
    [ "2024-02-29"; "2023-03-01"; "2024-03-01"; "2024-01-01";
      "1900-03-01"; "2000-02-29"; "2024-05-01" ]%string.
Proof. reflexivity. Qed.

End CalendarFacts.

(** * The review comment *)

Module ReviewFacts.

Import Review.

Local Open Scope string_scope.

(** X4. [generateReviewComment] never rejects and never resolves with an
    empty comment, whatever the generator does: a text that is not empty
    is returned as it is, an absent or empty one gives the first stock
    comment, a failure of the generator the second. The code snippet has
    no part in the comment. *)
Theorem review_comment_is_never_empty :
  forall (g : Generator) prTitle codeSnippet,
    exists comment,
      generateReviewComment g prTitle codeSnippet = Returned comment
      /\ truthy comment = true
      /\ match g (request prTitle) with
         | Returned response =>
             match Gemini.text response with
             | Some (String c t) => comment = String c t
             | _ => comment = "LGTM! Code structure looks solid."
             end
         | Thrown _ => comment = "Reviewed. Looks good to merge."
         end
      /\ forall otherSnippet,
           generateReviewComment g prTitle otherSnippet = Returned comment.
Proof.
  intros g prTitle codeSnippet. unfold generateReviewComment.
  destruct (g (request prTitle)) as [response|reason].
  - unfold text_or. destruct (Gemini.text response) as [[|c t]|];
      eexists; repeat split.
  - eexists. repeat split.
Qed.

(** A generator that answers with the empty text gets the stock
    comment. *)
Example review_of_empty_text :
  generateReviewComment (Fixtures.reviewer (Some "")) "Add login form" ""
  = Returned "LGTM! Code structure looks solid.".
Proof. reflexivity. Qed.

End ReviewFacts.

(** * The prompt *)

Module PromptFacts.

Import Gemini.

Local Open Scope string_scope.

Lemma prefix_self x rest : prefix x (x ++ rest) = true.
Proof.
  induction x as [|c x IH]; [destruct rest; reflexivity|].
  simpl. destruct (ascii_dec c c); [exact IH | contradiction].
Qed.

Lemma prefix_extend x :
  forall s rest, prefix x s = true -> prefix x (s ++ rest) = true.
Proof.
  induction x as [|c x IH]; intros s rest H;
    [destruct (s ++ rest); reflexivity|].
  destruct s as [|d s]; [discriminate|].
  simpl in *. destruct (ascii_dec c d); [apply IH; exact H | discriminate].
Qed.

Lemma includes_empty s : includes "" s = true.
Proof. destruct s; reflexivity. Qed.

Lemma includes_here x rest : includes x (x ++ rest) = true.
Proof.
  destruct x as [|c x]; [apply includes_empty|].
  change (String c x ++ rest) with (String c (x ++ rest)).
  cbn [includes].
  change (String c (x ++ rest)) with (String c x ++ rest).
  rewrite prefix_self. reflexivity.
Qed.

Lemma includes_later x a rest :
  includes x rest = true -> includes x (a ++ rest) = true.
Proof.
  intros H. induction a as [|c a IH]; [exact H|].
  cbn [append includes]. rewrite IH. apply orb_true_r.
Qed.

Lemma includes_extend x s rest :
  includes x s = true -> includes x (s ++ rest) = true.
Proof.
  destruct x as [|c x]; [intros _; apply includes_empty|].
  induction s as [|d s IH]; [discriminate|].
  cbn [includes append]. intros H. apply orb_true_iff in H.
  destruct H as [H|H].
  - change (String d (s ++ rest)) with (String d s ++ rest).
    rewrite (prefix_extend _ _ rest H). reflexivity.
  - rewrite (IH H). apply orb_true_r.
Qed.

Lemma includes_self x : includes x x = true.
Proof.
  destruct x as [|c x]; [reflexivity|]. cbn [includes].
  replace (String c x) with (String c x ++ "") at 2.
  - rewrite prefix_self. reflexivity.
  - clear. induction (String c x) as [|d s IH]; [reflexivity|].
    simpl. rewrite IH. reflexivity.
Qed.

Lemma includes_join a l : In a l -> includes a (join ", " l) = true.
Proof.
  induction l as [|x l IH]; [contradiction|].
  intros Hin. cbn [join]. destruct l as [|y l].
  - destruct Hin as [->|[]]. apply includes_self.
  - destruct Hin as [->|Hin]; [apply includes_here|].
    apply includes_later, includes_later, IH, Hin.
Qed.

Ltac find_field :=
  repeat first [ apply includes_here | apply includes_later ].

(** X5. The prompt sent to the generator carries every field of the
    configuration that the template names: the user name, the
    repository, the tech stack, the strategy, both ends of the date
    range, the intensity, the large-file flag and each selected
    achievement; and it is the [contents] of the request. *)
Theorem prompt_embeds_configuration :
  forall c,
    includes (username c) (prompt c) = true
    /\ includes (targetRepo c) (prompt c) = true
    /\ includes (techStack c) (prompt c) = true
    /\ includes (Strategy_str (strategy c)) (prompt c) = true
    /\ includes (startDate c) (prompt c) = true
    /\ includes (endDate c) (prompt c) = true
    /\ includes (string_of_Z (intensity c)) (prompt c) = true
    /\ includes (string_of_bool (includeLfs c)) (prompt c) = true
    /\ (forall a, In a (achievements c) -> includes a (prompt c) = true)
    /\ contents (request c) = prompt c.
Proof.
  intros c. unfold prompt. repeat split; try solve [find_field].
  intros a Ha.
  repeat first
    [ solve [apply includes_extend; apply includes_join; exact Ha]
    | apply includes_later ].
Qed.

End PromptFacts.

(** * The plan handler *)

Module AppFacts.

Import App.

Local Open Scope string_scope.

(** X6. When the start date of the configuration is a date,
    [handleGeneratePlan] resolves whatever the generator does: it leaves
    the blueprint phase, the loading flag cleared, and as plan the value
    that [generateSimulationPlan] resolved with. *)
Theorem plan_handler_settles :
  forall (g : Gemini.Generator) c st t,
    JsDate.parse_date (startDate c) = Some t ->
    exists planData,
      handleGeneratePlan g c st =
        (Returned tt, mkPlanState blueprint planData false)
      /\ fst (Gemini.generateSimulationPlan g c) = Returned planData.
Proof.
  intros g c st t Ht. unfold handleGeneratePlan, Gemini.generateSimulationPlan.
  destruct (Gemini.generate g c) as [planData|reason] eqn:Hgen.
  - exists planData. cbn [fst]. split; reflexivity.
  - destruct (GeminiFacts.fallback_defined c t Ht) as [next_day [_ Hfb]].
    exists (Gemini.two_events (startDate c) next_day (username c)).
    cbn [fst]. rewrite Hfb. split; reflexivity.
Qed.

(** X6, on a generator that resolves without text. *)
Lemma plan_handler_settles_witness :
  exists planData,
    handleGeneratePlan Sample.silent Sample.alice Fixtures.blank_plan =
      (Returned tt, mkPlanState blueprint planData false)
    /\ fst (Gemini.generateSimulationPlan Sample.silent Sample.alice) =
         Returned planData.
Proof.
  exact (plan_handler_settles Sample.silent Sample.alice Fixtures.blank_plan
           1704067200000%Z eq_refl).
Defined.

(** X7. When generation fails and the fallback throws as well,
    [handleGeneratePlan] rejects with the reason of the fallback and the
    view is left in the blueprint phase with the loading flag still set
    and the previous plan. *)
Theorem plan_handler_stays_loading :
  forall (g : Gemini.Generator) c st reason why,
    Gemini.generation_fails g c reason ->
    Gemini.fallback c = Thrown why ->
    handleGeneratePlan g c st =
      (Thrown why, mkPlanState blueprint (plan st) true).
Proof.
  intros g c st reason why Hfails Hfb.
  apply GeminiFacts.generate_fails_iff in Hfails.
  unfold handleGeneratePlan, Gemini.generateSimulationPlan.
  rewrite Hfails. cbn [fst]. rewrite Hfb. reflexivity.
Qed.

(** X7, on a cleared start date and a generator that cannot be
    reached. *)
Lemma plan_handler_stays_loading_witness :
  handleGeneratePlan Sample.unreachable Sample.undated Fixtures.blank_plan =
    (Thrown "Invalid time value",
     mkPlanState blueprint (plan Fixtures.blank_plan) true).
Proof.
  exact (plan_handler_stays_loading Sample.unreachable Sample.undated
           Fixtures.blank_plan "fetch failed" "Invalid time value"
           (Gemini.collaborator_fault Sample.unreachable Sample.undated
              "fetch failed" eq_refl)
           eq_refl).
Defined.

End AppFacts.

(** * The selection of achievements *)

Module SelectionFacts.

Import Views.

Lemma existsb_eqb_In id l : existsb (String.eqb id) l = true <-> In id l.
Proof.
  rewrite existsb_exists. split.
  - intros [x [Hin Heq]]. apply String.eqb_eq in Heq. subst x. exact Hin.
  - intros Hin. exists id. split; [exact Hin | apply String.eqb_refl].
Qed.

Lemma filter_other_In id a l :
  In a (filter (fun x => negb (String.eqb x id)) l) <-> In a l /\ a <> id.
Proof.
  rewrite filter_In, negb_true_iff, String.eqb_neq. reflexivity.
Qed.

Lemma filter_absent id l :
  ~ In id l -> filter (fun x => negb (String.eqb x id)) l = l.
Proof.
  induction l as [|a l IH]; [reflexivity|]. simpl. intros H.
  destruct (String.eqb_spec a id) as [->|Hne]; [tauto|].
  simpl. rewrite IH by tauto. reflexivity.
Qed.

Lemma NoDup_snoc (l : list string) x :
  NoDup l -> ~ In x l -> NoDup (l ++ [x]).
Proof.
  intros Hl Hx.
  apply NoDup_app; [exact Hl | repeat constructor; simpl; tauto |].
  intros a Ha [<-|[]]. contradiction.
Qed.

Lemma toggle_others config id a :
  a <> id ->
  (In a (achievements (toggleAchievement config id)) <->
     In a (achievements config)).
Proof.
  intros Ha. unfold toggleAchievement. cbv zeta.
  destruct (existsb (String.eqb id) (achievements config));
    cbn [achievements with_achievements].
  - rewrite filter_other_In. tauto.
  - rewrite in_app_iff. simpl. split; [|tauto].
    intros [H|[H|[]]]; [exact H | congruence].
Qed.

Lemma toggle_keeps config id :
  In id Constants.achievement_ids ->
  NoDup (achievements config) ->
  incl (achievements config) Constants.achievement_ids ->
  NoDup (achievements (toggleAchievement config id))
  /\ incl (achievements (toggleAchievement config id))
       Constants.achievement_ids.
Proof.
  intros Hid Hnd Hincl. split.
  - unfold toggleAchievement. cbv zeta.
    destruct (existsb (String.eqb id) (achievements config)) eqn:Hin;
      cbn [achievements with_achievements].
    + apply NoDup_filter. exact Hnd.
    + apply NoDup_snoc; [exact Hnd|]. intros H.
      apply existsb_eqb_In in H. congruence.
  - intros a Ha. destruct (String.eqb_spec a id) as [->|Hne]; [exact Hid|].
    apply Hincl. apply (toggle_others config id a Hne). exact Ha.
Qed.

(** X8. [toggleAchievement] flips whether the identifier is selected,
    leaves every other identifier as it was, selected or not, and touches
    no other field of the configuration. *)
Theorem toggleAchievement_flips_one :
  forall config id,
    (In id (achievements (toggleAchievement config id)) <->
       ~ In id (achievements config))
    /\ (forall a, a <> id ->
          (In a (achievements (toggleAchievement config id)) <->
             In a (achievements config)))
    /\ with_achievements (achievements config) (toggleAchievement config id)
       = config.
Proof.
  intros config id. split; [|split].
  - unfold toggleAchievement. cbv zeta.
    destruct (existsb (String.eqb id) (achievements config)) eqn:Hin;
      cbn [achievements with_achievements].
    + apply existsb_eqb_In in Hin. rewrite filter_other_In. tauto.
    + assert (Hout : ~ In id (achievements config)).
      { intros H. apply existsb_eqb_In in H. congruence. }
      rewrite in_app_iff. simpl. tauto.
  - intros a Ha. apply toggle_others. exact Ha.
  - unfold toggleAchievement. cbv zeta. destruct config; reflexivity.
Qed.

(** X9. Toggling an identifier twice: one that was not selected leaves
    the configuration as it was; one that was selected is selected again,
    but moves to the end of the list, and every earlier copy of it is
    gone. *)
Theorem toggleAchievement_twice :
  forall config id,
    (~ In id (achievements config) ->
       toggleAchievement (toggleAchievement config id) id = config)
    /\ (In id (achievements config) ->
          achievements (toggleAchievement (toggleAchievement config id) id) =
            filter (fun x => negb (String.eqb x id)) (achievements config)
              ++ [id]).
Proof.
  intros config id. split; intros Hin.
  - unfold toggleAchievement at 2. cbv zeta.
    replace (existsb (String.eqb id) (achievements config)) with false
      by (symmetry; apply not_true_is_false; rewrite existsb_eqb_In;
          exact Hin).
    unfold toggleAchievement. cbv zeta. cbn [achievements with_achievements].
    replace (existsb (String.eqb id) (achievements config ++ [id])) with true
      by (symmetry; apply existsb_eqb_In; apply in_or_app; right; left;
          reflexivity).
    rewrite filter_app. simpl. rewrite String.eqb_refl. simpl.
    rewrite app_nil_r, filter_absent by exact Hin.
    destruct config; reflexivity.
  - unfold toggleAchievement at 2. cbv zeta.
    replace (existsb (String.eqb id) (achievements config)) with true
      by (symmetry; apply existsb_eqb_In; exact Hin).
    unfold toggleAchievement. cbv zeta. cbn [achievements with_achievements].
    replace (existsb (String.eqb id)
               (filter (fun a => negb (String.eqb a id))
                  (achievements config)))
      with false; [reflexivity|].
    symmetry. apply not_true_is_false.
    rewrite existsb_eqb_In, filter_other_In. tauto.
Qed.

(** X10. From a selection without duplicates within the catalog, as the
    one of the default configuration, any sequence of toggles of catalog
    identifiers, which are the ones the cards pass, leaves a selection
    without duplicates within the catalog, so of at most five
    identifiers. *)
Theorem selection_stays_in_catalog :
  forall ids config,
    NoDup (achievements config) ->
    incl (achievements config) Constants.achievement_ids ->
    Forall (fun id => In id Constants.achievement_ids) ids ->
    let final := fold_left toggleAchievement ids config in
    NoDup (achievements final)
    /\ incl (achievements final) Constants.achievement_ids
    /\ (List.length (achievements final) <= 5)%nat.
Proof.
  induction ids as [|id ids IH]; intros config Hnd Hincl Hids; cbv zeta.
  - cbn [fold_left]. split; [exact Hnd|]. split; [exact Hincl|].
    change 5%nat with (List.length Constants.achievement_ids).
    apply NoDup_incl_length; assumption.
  - inversion Hids as [|? ? Hid Hids']; subst.
    destruct (toggle_keeps config id Hid Hnd Hincl) as [Hnd' Hincl'].
    cbn [fold_left]. apply (IH _ Hnd' Hincl' Hids').
Qed.

(** X10, from the default configuration. *)
Lemma selection_stays_in_catalog_witness :
  let final :=
    fold_left toggleAchievement
      ["yolo"; "pull_shark"; "yolo"; "quickdraw"; "pull_shark"]%string
      (Constants.DEFAULT_CONFIG "2023-06-01" "2024-06-01") in
  NoDup (achievements final)
  /\ incl (achievements final) Constants.achievement_ids
  /\ (List.length (achievements final) <= 5)%nat.
Proof.
  apply (selection_stays_in_catalog
           ["yolo"; "pull_shark"; "yolo"; "quickdraw"; "pull_shark"]%string
           (Constants.DEFAULT_CONFIG "2023-06-01" "2024-06-01")).
  - repeat constructor; simpl; intuition discriminate.
  - intros a Ha. simpl in Ha. simpl. intuition.
  - repeat constructor; simpl; tauto.
Defined.

(** The default selection, after a press on its first card and on
    another. *)
Example toggles_of_the_default_selection :
  achievements
    (fold_left toggleAchievement ["pull_shark"; "yolo"]%string
       (Constants.DEFAULT_CONFIG "2023-06-01" "2024-06-01"))
  = ["pair_extraordinaire"; "yolo"]%string.
Proof. reflexivity. Qed.

End SelectionFacts.

(** * The chart of the blueprint *)

Module ChartFacts.

Import Views.

Lemma tally_total d acc : total (tally d acc) = S (total acc).
Proof.
  unfold total. induction acc as [|p acc IH]; [reflexivity|].
  cbn [tally]. destruct (String.eqb (point_date p) d); simpl in *; lia.
Qed.

Lemma tally_days d acc :
  days (tally d acc) =
    if existsb (String.eqb d) (days acc) then days acc
    else (days acc ++ [d])%list.
Proof.
  unfold days. induction acc as [|p acc IH]; [reflexivity|].
  cbn [tally map existsb]. rewrite (String.eqb_sym d).
  destruct (String.eqb (point_date p) d); [reflexivity|].
  cbn [map orb]. rewrite IH.
  destruct (existsb (String.eqb d) (map point_date acc)); reflexivity.
Qed.

Lemma tally_NoDup d acc : NoDup (days acc) -> NoDup (days (tally d acc)).
Proof.
  intros H. rewrite tally_days.
  destruct (existsb (String.eqb d) (days acc)) eqn:E; [exact H|].
  apply SelectionFacts.NoDup_snoc; [exact H|].
  intros Hin. apply SelectionFacts.existsb_eqb_In in Hin. congruence.
Qed.

Lemma tally_filed d d' acc :
  filed d' (tally d acc) =
    if String.eqb d d' then S (filed d' acc) else filed d' acc.
Proof.
  induction acc as [|p acc IH].
  - simpl. destruct (String.eqb d d'); reflexivity.
  - cbn [tally]. destruct (String.eqb_spec (point_date p) d) as [Hp|Hp].
    + cbn [filed point_date count]. rewrite Hp.
      destruct (String.eqb d d'); lia.
    + cbn [filed]. rewrite IH.
      destruct (String.eqb_spec (point_date p) d') as [Hp'|Hp'];
        [|reflexivity].
      destruct (String.eqb_spec d d') as [Hd|Hd]; [congruence | reflexivity].
Qed.

(** The invariant of the [reduce]. *)
Lemma tallies_from plan :
  forall acc,
    let out :=
      fold_left (fun acc event => tally (day_of (date event)) acc) plan acc in
    total out = (total acc + List.length plan)%nat
    /\ (NoDup (days acc) -> NoDup (days out))
    /\ (forall d, filed d out = (filed d acc + on_day d plan)%nat)
    /\ (forall d,
          In d (days out) <->
            In d (days acc) \/ In d (map (fun e => day_of (date e)) plan)).
Proof.
  induction plan as [|e plan IH]; intros acc.
  - simpl. split; [lia|]. split; [trivial|].
    split; [intros; unfold on_day; simpl; lia|]. intros d. tauto.
  - cbn [fold_left].
    destruct (IH (tally (day_of (date e)) acc)) as [Ht [Hn [Hf Hd]]].
    cbv zeta in *. split; [|split; [|split]].
    + rewrite Ht, tally_total. simpl. lia.
    + intros H. apply Hn, tally_NoDup, H.
    + intros d. rewrite Hf, tally_filed. unfold on_day. cbn [filter].
      destruct (String.eqb (day_of (date e)) d); simpl; lia.
    + intros d. rewrite Hd, tally_days. cbn [map In].
      destruct (existsb (String.eqb (day_of (date e))) (days acc)) eqn:E.
      * apply SelectionFacts.existsb_eqb_In in E. split; [tauto|].
        intros [H|[<-|H]]; tauto.
      * rewrite in_app_iff. simpl. tauto.
Qed.

Lemma insert_point_perm p l : Permutation (insert_point p l) (p :: l).
Proof.
  induction l as [|q l IH]; [reflexivity|].
  cbn [insert_point]. destruct (later p q); [|reflexivity].
  rewrite IH. apply perm_swap.
Qed.

Lemma sort_points_perm l : Permutation (sort_points l) l.
Proof.
  induction l as [|p l IH]; [reflexivity|].
  cbn [sort_points fold_right]. fold (sort_points l).
  rewrite insert_point_perm. constructor. exact IH.
Qed.

Lemma filed_In d l :
  NoDup (days l) ->
  forall p, In p l -> point_date p = d -> filed d l = count p.
Proof.
  induction l as [|q l IH]; intros Hnd p Hin Hd; [contradiction|].
  cbn [filed]. inversion Hnd as [|? ? Hnotin Hnd']; subst.
  destruct Hin as [->|Hin].
  - rewrite String.eqb_refl. reflexivity.
  - destruct (String.eqb_spec (point_date q) (point_date p)) as [E|N].
    + exfalso. apply Hnotin. rewrite E. apply in_map. exact Hin.
    + apply IH; auto.
Qed.

Lemma insert_point_sorted p l :
  time_of p <> None ->
  Forall (fun q => time_of q <> None) l ->
  Sorted dated_before l -> Sorted dated_before (insert_point p l).
Proof.
  intros Hp Hl Hs. induction l as [|q l IH]; [repeat constructor|].
  inversion Hl as [|? ? Hq Hl']; subst.
  inversion Hs as [|? ? Hs' Hhd]; subst.
  cbn [insert_point]. unfold later. fold (time_of p). fold (time_of q).
  destruct (time_of p) as [x|] eqn:Ex; [|congruence].
  destruct (time_of q) as [y|] eqn:Ey; [|congruence].
  destruct (Z.ltb_spec 0 (x - y)).
  - constructor; [apply IH; assumption|].
    destruct l as [|r l]; cbn [insert_point].
    + constructor. exists y, x. repeat split; try assumption. lia.
    + unfold later. fold (time_of p). fold (time_of r). rewrite Ex.
      inversion Hl' as [|? ? Hr _]; subst.
      destruct (time_of r) as [z|] eqn:Ez; [|congruence].
      destruct (Z.ltb_spec 0 (x - z)).
      * constructor. inversion Hhd; subst. assumption.
      * constructor. exists y, x. repeat split; try assumption. lia.
  - constructor; [exact Hs|]. constructor. exists x, y.
    repeat split; try assumption. lia.
Qed.

Lemma sort_points_sorted l :
  Forall (fun q => time_of q <> None) l -> Sorted dated_before (sort_points l).
Proof.
  induction l as [|p l IH]; intros H; [constructor|].
  inversion H; subst. cbn [sort_points fold_right]. fold (sort_points l).
  apply insert_point_sorted; [assumption| |apply IH; assumption].
  apply Forall_forall. intros q Hq.
  apply (Permutation_in _ (sort_points_perm l)) in Hq.
  revert q Hq. apply Forall_forall. assumption.
Qed.

(** X11. The counts of the chart add up to the number of events of the
    plan: every event is counted once. *)
Theorem chartData_total :
  forall plan, total (chartData plan) = List.length plan.
Proof.
  intros plan. unfold chartData, total.
  rewrite (Permutation_map count (sort_points_perm (tallies plan))).
  destruct (tallies_from plan []) as [Ht _]. exact Ht.
Qed.

(** X12. The chart has one point for each day on which the plan has an
    event and no other: no day twice, the count of a point is the number
    of events of its day, which is at least one, and the day of every
    event has its point. The day of an event is its date up to the first
    T. *)
Theorem chartData_points :
  forall plan,
    NoDup (days (chartData plan))
    /\ (forall p, In p (chartData plan) ->
          count p = on_day (point_date p) plan /\ (1 <= count p)%nat)
    /\ (forall e, In e plan -> In (day_of (date e)) (days (chartData plan))).
Proof.
  intros plan.
  destruct (tallies_from plan []) as [_ [Hnd [Hfiled Hdays]]]. cbv zeta in *.
  fold (tallies plan) in *. specialize (Hnd (NoDup_nil _)).
  pose proof (sort_points_perm (tallies plan)) as Hperm.
  split; [|split].
  - unfold chartData, days.
    apply (Permutation_NoDup (l := days (tallies plan))); [|exact Hnd].
    apply Permutation_map. symmetry. exact Hperm.
  - intros p Hin. unfold chartData in Hin.
    apply (Permutation_in _ Hperm) in Hin.
    assert (Hc : count p = on_day (point_date p) plan).
    { rewrite <- (filed_In (point_date p) (tallies plan) Hnd p Hin eq_refl).
      rewrite Hfiled. reflexivity. }
    split; [exact Hc|]. rewrite Hc.
    assert (Hday : In (point_date p) (map (fun e => day_of (date e)) plan)).
    { apply (in_map point_date) in Hin. apply Hdays in Hin.
      destruct Hin as [[]|H]. exact H. }
    apply in_map_iff in Hday. destruct Hday as [e [He Hin']].
    unfold on_day.
    assert (In e (filter (fun e0 =>
                            String.eqb (day_of (date e0)) (point_date p))
                    plan)).
    { apply filter_In. split; [exact Hin'|]. rewrite He.
      apply String.eqb_refl. }
    destruct (filter _ plan); [contradiction | simpl; lia].
  - intros e He. unfold chartData, days.
    apply (Permutation_in (l := days (tallies plan))).
    + apply Permutation_map. symmetry. exact Hperm.
    + apply Hdays. right. apply in_map_iff. exists e.
      split; [reflexivity | exact He].
Qed.

(** X13. When the day of every event of the plan reads as a date, the
    points of the chart are in the order of time, whatever the order of
    the events in the plan. *)
Theorem chartData_sorted :
  forall plan,
    (forall e, In e plan -> JsDate.of_string (day_of (date e)) <> None) ->
    Sorted dated_before (chartData plan).
Proof.
  intros plan Hvalid. unfold chartData. apply sort_points_sorted.
  apply Forall_forall. intros q Hq.
  destruct (tallies_from plan []) as [_ [_ [_ Hdays]]]. cbv zeta in Hdays.
  apply (in_map point_date) in Hq. apply Hdays in Hq.
  destruct Hq as [[]|Hq].
  apply in_map_iff in Hq. destruct Hq as [e [He Hin]].
  unfold time_of. rewrite <- He. apply Hvalid. exact Hin.
Qed.

(** X13, on six events of three days given out of order. *)
Lemma chartData_sorted_witness :
  Sorted dated_before (chartData Fixtures.week).
Proof.
  apply (chartData_sorted Fixtures.week).
  intros e He.
  repeat (destruct He as [<-|He]; [vm_compute; discriminate|]).
  destruct He.
Defined.

(** The chart of the same six events. *)
Example chart_of_a_week :
  chartData Fixtures.week =
    [ mkChartPoint "2024-01-01" 2; mkChartPoint "2024-01-02" 1;
      mkChartPoint "2024-01-03" 3 ].
Proof. vm_compute. reflexivity. Qed.

End ChartFacts.

(** * The setup view and the stepper *)

Module SetupFacts.

Import Views.

Local Open Scope string_scope.

Lemma split_on_nonempty sep s : split_on sep s <> [].
Proof.
  destruct s as [|c r]; [discriminate|]. cbn [split_on].
  destruct (Ascii.eqb c sep); [discriminate|].
  destruct (split_on sep r); discriminate.
Qed.

Lemma includes_char sep c r :
  includes (String sep "") (String c r) =
    Ascii.eqb sep c || includes (String sep "") r.
Proof.
  cbn [includes]. f_equal. simpl.
  destruct (ascii_dec sep c) as [->|Hne].
  - rewrite Ascii.eqb_refl. destruct r; reflexivity.
  - symmetry. apply Ascii.eqb_neq. exact Hne.
Qed.

Lemma split_on_pieces sep s :
  Forall (fun piece => includes (String sep "") piece = false)
    (split_on sep s).
Proof.
  induction s as [|c r IH]; [repeat constructor|].
  cbn [split_on]. destruct (Ascii.eqb c sep) eqn:Hc.
  - constructor; [reflexivity | exact IH].
  - destruct (split_on sep r) as [|piece pieces]; [repeat constructor|].
    + rewrite includes_char, Ascii.eqb_sym, Hc. reflexivity.
    + inversion IH; subst. constructor; [|assumption].
      rewrite includes_char, Ascii.eqb_sym, Hc. assumption.
Qed.

(** X14. A press on the connect button of the setup view moves on to the
    configuration only when the token and the repository are filled in,
    no verification is under way and the remote repository accepted the
    connection; otherwise the view stays: untouched and without a call
    when the button is disabled, with the reason of the refusal as its
    error when the connection is refused. *)
Theorem setup_advances_only_when_verified :
  forall (E : Weave.Env) config st (w : Weave.world E),
    let '(st', phase', w') :=
      press_connect E (fun _ => config_phase) config st setup w in
    match phase' with
    | config_phase =>
        truthy (githubToken config) = true
        /\ truthy (targetRepo config) = true
        /\ verifying st = false
        /\ Weave.initGitHub E (githubToken config) (targetRepo config)
             (username config) w = (Returned tt, w')
        /\ st' = mkSetupState false None
    | _ =>
        phase' = setup
        /\ ((connect_disabled st config = true /\ st' = st /\ w' = w)
            \/ exists reason,
                 Weave.initGitHub E (githubToken config) (targetRepo config)
                   (username config) w = (Thrown reason, w')
                 /\ st' = mkSetupState false (Some reason))
    end.
Proof.
  intros E config st w. unfold press_connect.
  destruct (connect_disabled st config) eqn:Hdis.
  - split; [reflexivity|]. left. repeat split.
  - unfold connect_disabled in Hdis.
    apply orb_false_iff in Hdis. destruct Hdis as [Hdis Hrepo].
    apply orb_false_iff in Hdis. destruct Hdis as [Hver Htoken].
    apply negb_false_iff in Hrepo, Htoken.
    unfold handleVerify. cbv zeta. cbn [verifying error].
    destruct (Weave.initGitHub E (githubToken config) (targetRepo config)
                (username config) w) as [[[]|reason] w'].
    + repeat split; assumption.
    + split; [reflexivity|]. right. exists reason. split; reflexivity.
Qed.

(** X15. [handleRepoInput] changes at most the owner and the repository:
    either it stores the input as the repository and keeps the owner, or
    the input names github.com, its path has at least two segments that
    are not empty, and the first two become owner and repository, neither
    empty nor holding a slash. An input that does not name github.com is
    always stored as it is. *)
Theorem repo_input_fills_owner_and_repo :
  forall pathname_of config val,
    let c' := handleRepoInput pathname_of config val in
    with_owner_and_repo (username config) (targetRepo config) c' = config
    /\ ((username c' = username config /\ targetRepo c' = val)
        \/ (includes "github.com" val = true
            /\ exists pathname rest,
                 pathname_of val = Returned pathname
                 /\ filter truthy (split_on "/" pathname)
                    = username c' :: targetRepo c' :: rest
                 /\ truthy (username c') = true
                 /\ truthy (targetRepo c') = true
                 /\ includes "/" (username c') = false
                 /\ includes "/" (targetRepo c') = false))
    /\ (includes "github.com" val = false ->
        username c' = username config /\ targetRepo c' = val).
Proof.
  intros pathname_of config val. cbv zeta. unfold handleRepoInput.
  destruct (includes "github.com" val) eqn:Hgh.
  - destruct (pathname_of val) as [pathname|reason] eqn:Hpath.
    + destruct (filter truthy (split_on "/" pathname))
        as [|owner [|repo rest]] eqn:Hparts.
      * destruct config; cbn; repeat split; try discriminate.
        left. split; reflexivity.
      * destruct config; cbn; repeat split; try discriminate.
        left. split; reflexivity.
      * assert (Hin : forall p, In p (owner :: repo :: rest) ->
                   truthy p = true /\ includes "/" p = false).
        { intros p Hp. rewrite <- Hparts in Hp. apply filter_In in Hp.
          destruct Hp as [Hp Ht]. split; [exact Ht|].
          pose proof (split_on_pieces "/" pathname) as Hall.
          rewrite Forall_forall in Hall. apply Hall. exact Hp. }
        destruct (Hin owner (or_introl eq_refl)) as [Ho1 Ho2].
        destruct (Hin repo (or_intror (or_introl eq_refl))) as [Hr1 Hr2].
        destruct config; cbn in *. split; [reflexivity|].
        split; [|discriminate].
        right. split; [reflexivity|]. exists pathname, rest.
        repeat split; assumption.
    + destruct config; cbn; repeat split; try discriminate.
      left. split; reflexivity.
  - destruct config; cbn; repeat split. left. split; reflexivity.
Qed.

(** A repository address and a bare name, as typed into the field. *)
Example repo_input_of_an_address :
  let c' :=
    handleRepoInput Fixtures.pathname_of Sample.alice
      "https://github.com/octocat/hello-world/" in
  (username c', targetRepo c') = ("octocat", "hello-world").
Proof. vm_compute. reflexivity. Qed.

(** X16. The stepper marks the steps before the one of the current phase
    as completed, that one as active and the ones after it as pending;
    once the phase is complete it shows no step. For any two step
    numbers the class of an indicator is set by their order alone. *)
Theorem stepper_marks_progress :
  forall phase (step currentStep : Z),
    let done := "text-emerald-400 border-emerald-400 bg-emerald-950/30" in
    let active := "text-cyan-400 border-cyan-400 bg-cyan-950/30" in
    let pending := "text-slate-500 border-slate-700" in
    stepper phase =
      match phase with
      | complete => []
      | _ =>
          (repeat done (Z.to_nat (step_of phase)) ++ [active]
             ++ repeat pending (3 - Z.to_nat (step_of phase)))%list
      end
    /\ colorClass step currentStep =
         match (step ?= currentStep)%Z with
         | Lt => done
         | Eq => active
         | Gt => pending
         end.
Proof.
  intros phase step currentStep. cbv zeta. split.
  - destruct phase; reflexivity.
  - unfold colorClass. cbv zeta.
    destruct (Z.compare_spec step currentStep) as [H|H|H].
    + rewrite (proj2 (Z.eqb_eq _ _) H).
      rewrite (proj2 (Z.ltb_ge _ _)) by lia. reflexivity.
    + rewrite (proj2 (Z.ltb_lt _ _) H). reflexivity.
    + rewrite (proj2 (Z.eqb_neq _ _)) by lia.
      rewrite (proj2 (Z.ltb_ge _ _)) by lia. reflexivity.
Qed.

End SetupFacts.

(** * More on a run *)

Module RunFacts.

Import Weave Readings.

Local Open Scope string_scope.

Ltac connected E config plan s Hinit :=
  let atts := fresh "atts" in
  let s' := fresh "s'" in
  let t2 := fresh "t2" in
  let Hrun := fresh "Hrun" in
  let Hev := fresh "Hev" in
  let Hidx := fresh "Hidx" in
  let Happ := fresh "Happ" in
  destruct (WeaveFacts.handleWeave_connected E config plan s _ Hinit)
    as [atts [s' [t2 [Hrun [Hev [Hidx Happ]]]]]];
  rewrite Hrun.

Lemma shown_attempt_logs atts :
  map shown (flat_map attempt_logs atts) =
    flat_map event_entries (combine (map a_event atts) (map a_result atts)).
Proof.
  induction atts as [|a atts IH]; [reflexivity|].
  cbn [flat_map map combine List.app]. rewrite <- IH.
  unfold event_entries, attempt_logs, processing_entry, settled_entry, shown.
  destruct (a_result a); reflexivity.
Qed.

Lemma calls_attempts config n atts :
  calls (flat_map (attempt_actions config n) atts) =
    map (fun e => CallExecuteGitEvent e config) (map a_event atts).
Proof.
  induction atts as [|a atts IH]; [reflexivity|].
  unfold calls in *. cbn [flat_map]. rewrite filter_app, IH. reflexivity.
Qed.

Lemma Math_round_le p q : p <= q -> (Math_round p <= Math_round q)%Z.
Proof.
  intros H. unfold Math_round. apply Qfloor_resp_le.
  apply Qplus_le_l. exact H.
Qed.

Lemma Sorted_round l : Sorted Qle l -> Sorted Z.le (map Math_round l).
Proof.
  induction 1 as [|q l Hs IH Hhd]; [constructor|].
  cbn [map]. constructor; [exact IH|].
  destruct Hhd; cbn [map]; constructor. apply Math_round_le. assumption.
Qed.

Lemma Math_round_range q : 0 <= q <= 100 -> (0 <= Math_round q <= 100)%Z.
Proof.
  intros [H0 H100]. split.
  - change 0%Z with (Math_round 0). apply Math_round_le. exact H0.
  - change 100%Z with (Math_round 100). apply Math_round_le. exact H100.
Qed.

(** X17. [handleWeave] never rejects, whatever the remote repository
    does, and always leaves the view finished: phase complete, not
    weaving, progress 100, so that the status line reads EXECUTION
    COMPLETE, the label 100% and the button for a new simulation is
    shown. *)
Theorem run_always_completes :
  forall (E : Env) config plan (s : Store E),
    let '(r, s', t) := handleWeave E config plan s in
    r = Returned tt
    /\ phase (app s') = complete
    /\ isWeaving (app s') = false
    /\ progress (app s') = 100
    /\ Views.done_button_shown (app s') = true
    /\ Views.status_line (isWeaving (app s')) = "EXECUTION COMPLETE"
    /\ Views.percent_label (progress (app s')) = "100%".
Proof.
  intros E config plan s.
  destruct (initGitHub E (githubToken config) (targetRepo config)
              (username config) (env s)) as [[[]|reason] w] eqn:Hinit.
  - connected E config plan s Hinit. rewrite Happ. repeat split.
  - rewrite (WeaveFacts.handleWeave_refused E config plan s reason w Hinit).
    repeat split.
Qed.

(** X18. The log of a run that connected, as shown, in full: the
    connecting entry, the connected entry, then for each event of the
    plan in order its processing entry followed by the result of its
    remote call, as a success entry, or as an error entry reading Failed
    and the reason, and last the closing entry; two entries for each
    event and three more. *)
Theorem log_of_a_run :
  forall (E : Env) config plan (s : Store E) w,
    initGitHub E (githubToken config) (targetRepo config) (username config)
      (env s) = (Returned tt, w) ->
    let '(r, s', t) := handleWeave E config plan s in
    map shown (logs (app s')) =
      ([ (info, connecting_message config);
         (success, connected_message plan) ]
         ++ flat_map event_entries (combine plan (settlements t))
         ++ [(success, "All events processed successfully.")])%list
    /\ List.length (logs (app s')) = (2 * List.length plan + 3)%nat.
Proof.
  intros E config plan s w Hinit.
  connected E config plan s Hinit.
  rewrite WeaveFacts.settlements_connected, Happ. cbn [logs].
  unfold connected_logs. split.
  - rewrite !map_app, shown_attempt_logs, Hev. reflexivity.
  - rewrite !length_app. cbn [List.length].
    rewrite <- Hev, length_map.
    assert (Hlen : List.length (flat_map attempt_logs atts)
                   = (2 * List.length atts)%nat).
    { clear. induction atts as [|a atts IH]; [reflexivity|].
      simpl in *. lia. }
    rewrite Hlen. lia.
Qed.

(** X18, on three events whose second fails. *)
Lemma log_of_a_run_witness :
  let '(r, s', t) :=
    handleWeave (Sample.remote ["evt_2"]) Sample.alice Sample.three_events
      (Sample.fresh ["evt_2"]) in
  map shown (logs (app s')) =
    ([ (info, connecting_message Sample.alice);
       (success, connected_message Sample.three_events) ]
       ++ flat_map event_entries
            (combine Sample.three_events (settlements t))
       ++ [(success, "All events processed successfully.")])%list
  /\ List.length (logs (app s'))
     = (2 * List.length Sample.three_events + 3)%nat.
Proof.
  exact (log_of_a_run (Sample.remote ["evt_2"]) Sample.alice
           Sample.three_events (Sample.fresh ["evt_2"]) 1%nat eq_refl).
Defined.

(** X19. A run starts afresh: the log, the progress, the phase and the
    weaving flag that the view held before have no part in what the run
    does nor in the state it leaves. *)
Theorem run_forgets_previous_state :
  forall (E : Env) config plan (before other : AppState) (w : world E),
    handleWeave E config plan (mkStore E before w) =
    handleWeave E config plan (mkStore E other w).
Proof.
  intros E config plan before other w. reflexivity.
Qed.

(** X20. The calls of a run to the remote repository: one to connect,
    with the token, the repository and the user name of the
    configuration; then, when it was accepted, one for each event of the
    plan in order, each with the configuration, and none when it was
    refused. No event is tried twice. *)
Theorem collaborator_calls :
  forall (E : Env) config plan (s : Store E),
    let '(r, s', t) := handleWeave E config plan s in
    calls t =
      CallInitGitHub (githubToken config) (targetRepo config) (username config)
        :: match fst (initGitHub E (githubToken config) (targetRepo config)
                        (username config) (env s)) with
           | Returned _ => map (fun e => CallExecuteGitEvent e config) plan
           | Thrown _ => []
           end.
Proof.
  intros E config plan s.
  destruct (initGitHub E (githubToken config) (targetRepo config)
              (username config) (env s)) as [[[]|reason] w] eqn:Hinit.
  - connected E config plan s Hinit. cbn [fst].
    unfold connected_trace, calls. rewrite !filter_app.
    fold (calls (flat_map (attempt_actions config (List.length plan)) atts)).
    rewrite calls_attempts, Hev. cbn. rewrite app_nil_r. reflexivity.
  - rewrite (WeaveFacts.handleWeave_refused E config plan s reason w Hinit).
    reflexivity.
Qed.

(** X21. The percentages that the execution view shows during a run,
    each progress value rounded: they start at 0, end at 100, never go
    down and stay between 0 and 100. *)
Theorem shown_percentages :
  forall (E : Env) config plan (s : Store E),
    let '(r, s', t) := handleWeave E config plan s in
    let labels := map Math_round (progress_updates t) in
    Sorted Z.le labels
    /\ Forall (fun z => 0 <= z <= 100)%Z labels
    /\ hd_error labels = Some 0%Z
    /\ last labels 0%Z = 100%Z.
Proof.
  intros E config plan s.
  destruct (initGitHub E (githubToken config) (targetRepo config)
              (username config) (env s)) as [[[]|reason] w] eqn:Hinit.
  - connected E config plan s Hinit. cbv zeta.
    rewrite WeaveFacts.progress_connected, Hidx.
    set (n := List.length plan).
    split; [|split; [|split]].
    + apply Sorted_round.
      apply (WeaveFacts.progress_sorted n n 0%nat 0); [lia | discriminate |].
      intros _. apply WeaveFacts.percent_nonneg.
    + apply Forall_forall. intros z Hz. apply in_map_iff in Hz.
      destruct Hz as [q [<- Hq]]. apply Math_round_range.
      destruct Hq as [<-|Hq]; [split; discriminate|].
      apply in_app_or in Hq.
      destruct Hq as [Hq|[<-|[]]]; [|split; discriminate].
      apply in_map_iff in Hq. destruct Hq as [i [<- Hi]]. apply in_seq in Hi.
      split; [apply WeaveFacts.percent_nonneg
             | apply WeaveFacts.percent_le_100; lia].
    + reflexivity.
    + cbn [map]. rewrite map_app. cbn [map].
      rewrite app_comm_cons, last_last. reflexivity.
  - rewrite (WeaveFacts.handleWeave_refused E config plan s reason w Hinit).
    cbv zeta. cbn. repeat split; repeat constructor; try discriminate; lia.
Qed.

End RunFacts.
